(** * librpydb: the Debug Adapter Protocol transport and message layer

    A shallow embedding of [protocol.py] (frame reader, header parser,
    request factory, message classes and their serializers) and of
    [utils.py] ([NoneDict]), followed by the properties established about
    them.

    Conventions of the embedding.
    - Python text strings are [string]; a character has a code point below
      256.  The socket object delivers text (the code compares what it reads
      with the empty string and appends it to a text string).
    - Python values that travel through JSON are [pyval]; floats are left
      out, no operation of the module computes with them.
    - A Python [dict] is an association list in insertion order, keys
      occurring once; [NoneDict] is the subclass whose subscript answers
      [None] for a missing key.
    - A call either returns, raises, or (for the two [while] loops of
      [recv_raw]) runs out of the fuel that bounds the number of
      iterations: [outcome]. *)

From Stdlib Require Import String Ascii List ZArith Bool Lia Arith.
From Stdlib Require Import Decimal DecimalString DecimalNat.
Import ListNotations.
Local Open Scope string_scope.
Local Open Scope list_scope.

(* ================================================================== *)
(** ** Python values, exceptions, results *)

#[local] Set Warnings "-register-all".

Inductive pyval : Type :=
| PNone
| PBool (b : bool)
| PInt (z : Z)
| PStr (s : string)
| PList (l : list pyval)
| PDict (d : list (string * pyval))
| PNoneDict (d : list (string * pyval)).

Definition dict := list (string * pyval).

Inductive exn : Type :=
| TypeError
| ValueError
| KeyError
| AttributeError
| NotImplementedError.

Inductive outcome (A : Type) : Type :=
| Return (a : A)
| Raise (e : exn)
| OutOfFuel.
Arguments Return {A} a.
Arguments Raise {A} e.
Arguments OutOfFuel {A}.

Definition bind {A B} (m : outcome A) (k : A -> outcome B) : outcome B :=
  match m with
  | Return a => k a
  | Raise e => Raise e
  | OutOfFuel => OutOfFuel
  end.

Declare Scope py_scope.
Delimit Scope py_scope with py.
Notation "x <- m ;; k" := (bind m (fun x => k))
  (at level 61, m at next level, right associativity) : py_scope.
Local Open Scope py_scope.

(** [v is None] *)
Definition is_none (v : pyval) : bool :=
  match v with PNone => true | _ => false end.

(* ================================================================== *)
(** ** dict and NoneDict *)

Module Dict.

(** [key in d] / [d.get(key)] *)
Fixpoint get (d : dict) (k : string) : option pyval :=
  match d with
  | [] => None
  | (k', v) :: r => if String.eqb k' k then Some v else get r k
  end.

(** [d[key] = v]: an existing key keeps its place, a new one goes last. *)
Fixpoint set (d : dict) (k : string) (v : pyval) : dict :=
  match d with
  | [] => [(k, v)]
  | (k', v') :: r =>
      if String.eqb k' k then (k', v) :: r else (k', v') :: set r k v
  end.

Definition keys (d : dict) : list string := map fst d.

Definition mem (d : dict) (k : string) : bool :=
  match get d k with Some _ => true | None => false end.

End Dict.

(** [dict.__getitem__]: a missing key raises [KeyError]. *)
Definition dict_getitem (d : dict) (k : string) : outcome pyval :=
  match Dict.get d k with
  | Some v => Return v
  | None => Raise KeyError
  end.

(** utils.py, [NoneDict.__getitem__]:
    [if key not in self: return None; return dict.__getitem__(self, key)] *)
Definition NoneDict_getitem (d : dict) (k : string) : outcome pyval :=
  if negb (Dict.mem d k) then Return PNone
  else dict_getitem d k.

(** [v[key]] with a string key, on any value. Lists and strings want integer
    indices, the other values are not subscriptable: [TypeError]. *)
Definition subscript (v : pyval) (k : string) : outcome pyval :=
  match v with
  | PDict d => dict_getitem d k
  | PNoneDict d => NoneDict_getitem d k
  | _ => Raise TypeError
  end.

(* ================================================================== *)
(** ** Text operations used by the reader *)

Module Str.

Definition CR : ascii := ascii_of_nat 13.
Definition LF : ascii := ascii_of_nat 10.
Definition CRLF : string := String CR (String LF EmptyString).

Fixpoint rev_onto (s acc : string) : string :=
  match s with
  | EmptyString => acc
  | String c r => rev_onto r (String c acc)
  end.
Definition rev (s : string) : string := rev_onto s EmptyString.

Fixpoint take (n : nat) (s : string) : string :=
  match n, s with
  | S m, String c r => String c (take m r)
  | _, _ => EmptyString
  end.

Fixpoint drop (n : nat) (s : string) : string :=
  match n, s with
  | S m, String _ r => drop m r
  | _, _ => s
  end.

(** [s.endswith(suffix)] *)
Definition endswith (s suffix : string) : bool :=
  String.prefix (rev suffix) (rev s).

(** [str.isspace] on one character: tab, LF, VT, FF, CR, the separators
    FS GS RS US, space, NEL and the no-break space. *)
Definition isspace (c : ascii) : bool :=
  let n := nat_of_ascii c in
  (((9 <=? n) && (n <=? 13)) || ((28 <=? n) && (n <=? 32))
   || (n =? 133) || (n =? 160))%nat.

Fixpoint lstrip (s : string) : string :=
  match s with
  | String c r => if isspace c then lstrip r else s
  | EmptyString => EmptyString
  end.

Definition rstrip (s : string) : string := rev (lstrip (rev s)).

(** [s.strip()] *)
Definition strip (s : string) : string := rstrip (lstrip s).

(** [s.split(sep)] for a one-character separator: every occurrence
    separates, so the result has one more part than [s] has separators. *)
Fixpoint split (sep : ascii) (s : string) : list string :=
  match s with
  | EmptyString => [EmptyString]
  | String c r =>
      if Ascii.eqb c sep then EmptyString :: split sep r
      else match split sep r with
           | p :: ps => String c p :: ps
           | [] => [String c EmptyString]
           end
  end.

Fixpoint count (sep : ascii) (s : string) : nat :=
  match s with
  | EmptyString => 0%nat
  | String c r => ((if Ascii.eqb c sep then 1 else 0) + count sep r)%nat
  end.

Definition is_digit (c : ascii) : bool :=
  let n := nat_of_ascii c in ((48 <=? n) && (n <=? 57))%nat.

(** The whitespace [int] skips around a number: tab, LF, VT, FF, CR and
    space, and the two whitespace characters above 127, NEL and the
    no-break space. The separators FS GS RS US, which [strip] removes,
    are not among them. *)
Definition int_space (c : ascii) : bool :=
  let n := nat_of_ascii c in
  (((9 <=? n) && (n <=? 13)) || (n =? 32) || (n =? 133) || (n =? 160))%nat.

Fixpoint int_lstrip (s : string) : string :=
  match s with
  | String c r => if int_space c then int_lstrip r else s
  | EmptyString => EmptyString
  end.

Definition int_strip (s : string) : string :=
  rev (int_lstrip (rev (int_lstrip s))).

(** Decimal digits, most significant first, onto an accumulator. A
    single underscore may stand between two digits (Python 3.6). *)
Fixpoint digits (s : string) (acc : Z) : option Z :=
  match s with
  | EmptyString => Some acc
  | String c r =>
      if is_digit c
      then digits r (10 * acc + Z.of_nat (nat_of_ascii c - 48))%Z
      else if Ascii.eqb c "_"%char then
        match r with
        | String d _ => if is_digit d then digits r acc else None
        | EmptyString => None
        end
      else None
  end.

(** The digits of a number: they start with a digit. *)
Definition number (s : string) : option Z :=
  match s with
  | String d _ => if is_digit d then digits s 0%Z else None
  | EmptyString => None
  end.

(** [int(s)] on text: surrounding whitespace ignored, an optional sign,
    then decimal digits, single underscores allowed between them. [None]
    stands for [ValueError]. *)
Definition parse_int (s : string) : option Z :=
  match int_strip s with
  | EmptyString => None
  | String c r =>
      if Ascii.eqb c "-"%char then option_map Z.opp (number r)
      else if Ascii.eqb c "+"%char then number r
      else number (String c r)
  end.

End Str.

(** [int(v)]: [None] is a [TypeError], text that is not an integer a
    [ValueError]; containers are a [TypeError] too. *)
Definition py_int (v : pyval) : outcome Z :=
  match v with
  | PNone => Raise TypeError
  | PBool b => Return (if b then 1 else 0)%Z
  | PInt z => Return z
  | PStr s => match Str.parse_int s with
              | Some z => Return z
              | None => Raise ValueError
              end
  | PList _ | PDict _ | PNoneDict _ => Raise TypeError
  end.

(** [len(v)] *)
Definition py_len (v : pyval) : outcome Z :=
  match v with
  | PStr s => Return (Z.of_nat (String.length s))
  | PList l => Return (Z.of_nat (List.length l))
  | PDict d | PNoneDict d => Return (Z.of_nat (List.length d))
  | PNone | PBool _ | PInt _ => Raise TypeError
  end.

(* ================================================================== *)
(** ** The byte stream *)

(** What the peer still has to deliver: the segments in arrival order.
    The empty list is the closed stream. *)
Definition socket := list string.

(** [socket.recv(n)]: at most [n] characters of the segment at the head;
    the closed stream answers the empty string, now and every time after. *)
Definition sock_recv (n : nat) (s : socket) : string * socket :=
  match s with
  | [] => (EmptyString, [])
  | c :: rest =>
      if (String.length c <=? n)%nat then (c, rest)
      else (Str.take n c, Str.drop n c :: rest)
  end.

(* ================================================================== *)
(** ** DAPMessage: the frame reader *)

(** protocol.py, [DAPMessage.parse_headers]: one step of the [for] loop.
    [type, value = hl.split(":")] unpacks exactly two parts, anything else
    is a [ValueError]. *)
Definition parse_header_line (h : dict) (hl : string) : outcome dict :=
  match Str.split ":"%char hl with
  | [type; value] =>
      let type := Str.strip type in
      let value := Str.strip value in
      Return (Dict.set h type (PStr value))
  | _ => Raise ValueError
  end.

Fixpoint parse_headers_from (h : dict) (headers : list string) : outcome dict :=
  match headers with
  | [] => Return h
  | hl :: rest =>
      h' <- parse_header_line h hl ;;
      parse_headers_from h' rest
  end.

(** [h = NoneDict({}); for hl in headers: ...; return h] *)
Definition parse_headers (headers : list string) : outcome dict :=
  parse_headers_from [] headers.

(** The first [while True] loop of [recv_raw]. [None] is the early
    [return None] on a zero-length read; otherwise the header lines read,
    in order, once the blank line has been seen. *)
Fixpoint header_loop (fuel : nat) (sock : socket) (headers : list string)
    (cread_line : string) : outcome (option (list string) * socket) :=
  match fuel with
  | O => OutOfFuel
  | S fuel' =>
      let (c, sock') := sock_recv 1 sock in
      if String.eqb c EmptyString then Return (None, sock')
      else
        let cread_line := (cread_line ++ c)%string in
        if Str.endswith cread_line Str.CRLF then
          if String.eqb cread_line Str.CRLF then Return (Some headers, sock')
          else header_loop fuel' sock' (headers ++ [cread_line]) EmptyString
        else header_loop fuel' sock' headers cread_line
  end.

(** The second loop:
    [while (len(data) < content_size):
         data += socket.recv(content_size-len(data))
         if data == '': return None] *)
Fixpoint body_loop (fuel : nat) (sock : socket) (data : string)
    (content_size : Z) : outcome (option string * socket) :=
  if (Z.of_nat (String.length data) <? content_size)%Z then
    match fuel with
    | O => OutOfFuel
    | S fuel' =>
        let (c, sock') :=
          sock_recv (Z.to_nat (content_size - Z.of_nat (String.length data))) sock in
        let data := (data ++ c)%string in
        if String.eqb data EmptyString then Return (None, sock')
        else body_loop fuel' sock' data content_size
    end
  else Return (Some data, sock).

(** [recv_raw] up to and excluding [json.loads]: the raw body text of one
    frame, or [None] where the code returns [None]. *)
Definition recv_raw_frame (fuel : nat) (sock : socket)
    : outcome (option string * socket) :=
  r <- header_loop fuel sock [] EmptyString ;;
  match r with
  | (None, sock') => Return (None, sock')
  | (Some headers, sock') =>
      headers <- parse_headers headers ;;
      v <- NoneDict_getitem headers "Content-Length" ;;
      content_size <- py_int v ;;
      body_loop fuel sock' EmptyString content_size
  end.

Section Reader.

(** [json.loads(data, object_hook=NoneDict)]: the decoder of the standard
    library, every JSON object coming back as a [PNoneDict]. *)
Variable json_loads : string -> outcome pyval.

(** protocol.py, [DAPMessage.recv_raw]. The result [PNone] is Python's
    [None]. *)
Definition recv_raw (fuel : nat) (sock : socket) : outcome (pyval * socket) :=
  r <- recv_raw_frame fuel sock ;;
  match r with
  | (None, sock') => Return (PNone, sock')
  | (Some data, sock') =>
      body <- json_loads data ;;
      Return (body, sock')
  end.

End Reader.

(* ================================================================== *)
(** ** Calls: binding arguments to parameters *)

(** A method signature [def f(self, p1, p2=d2, ..., **kwargs)]: the
    parameters after the receiver with their defaults, and whether a
    [**kwargs] parameter collects the remaining keywords. Every binding
    failure of Python is a [TypeError]. *)
Record signature : Type := {
  params : list (string * option pyval);
  var_kw : bool
}.

Definition receiver : string := "self".

(** Positional arguments fill the parameters from the left; more
    arguments than parameters cannot be bound. *)
Fixpoint bind_positional (ps : list (string * option pyval)) (pos : list pyval)
    {struct pos} : outcome (dict * list (string * option pyval)) :=
  match pos, ps with
  | [], _ => Return ([], ps)
  | _ :: _, [] => Raise TypeError
  | v :: pos', (name, _) :: ps' =>
      r <- bind_positional ps' pos' ;;
      let (bound, rest) := r in
      Return ((name, v) :: bound, rest)
  end.

Definition is_param (ps : list (string * option pyval)) (k : string) : bool :=
  existsb (fun p => String.eqb (fst p) k) ps.

(** Keywords: one naming the receiver or a parameter that already has a
    value is a second value for it; one naming a free parameter binds it;
    any other goes to [**kwargs] when there is one. *)
Fixpoint bind_keywords (ps : list (string * option pyval)) (has_var_kw : bool)
    (kw : dict) (bound extra : dict) : outcome (dict * dict) :=
  match kw with
  | [] => Return (bound, extra)
  | (k, v) :: kw' =>
      if String.eqb k receiver || Dict.mem bound k then Raise TypeError
      else if is_param ps k then
        bind_keywords ps has_var_kw kw' (bound ++ [(k, v)]) extra
      else if has_var_kw then
        if Dict.mem extra k then Raise TypeError
        else bind_keywords ps has_var_kw kw' bound (extra ++ [(k, v)])
      else Raise TypeError
  end.

(** Parameters still without a value take their default; one without a
    default is a missing argument. *)
Fixpoint bind_defaults (ps : list (string * option pyval)) (bound : dict)
    : outcome dict :=
  match ps with
  | [] => Return bound
  | (name, default) :: ps' =>
      if Dict.mem bound name then bind_defaults ps' bound
      else match default with
           | Some d => bind_defaults ps' (bound ++ [(name, d)])
           | None => Raise TypeError
           end
  end.

(** A call with positional arguments [pos] and keywords [kw]: the parameter
    bindings and the contents of [**kwargs]. *)
Definition bind_args (sg : signature) (pos : list pyval) (kw : dict)
    : outcome (dict * dict) :=
  r <- bind_positional (params sg) pos ;;
  let (bound, rest) := r in
  r' <- bind_keywords rest (var_kw sg) kw bound [] ;;
  let (bound', extra) := r' in
  bound'' <- bind_defaults rest bound' ;;
  Return (bound'', extra).

(** The value of a bound parameter. *)
Definition arg (bound : dict) (name : string) : pyval :=
  match Dict.get bound name with
  | Some v => v
  | None => PNone
  end.

(** Keyword unpacking at a call site: the value unpacked must be a mapping. *)
Definition unpack_mapping (v : pyval) : outcome dict :=
  match v with
  | PDict d | PNoneDict d => Return d
  | _ => Raise TypeError
  end.

(* ================================================================== *)
(** ** Classes and instances *)

Inductive class : Type :=
| DAPMessage
| DAPRequest
| DAPEvent
| DAPResponse
| DAPErrorResponse
| DAPInitializedEvent
| DAPStoppedEvent
| DAPContinueEvent
| DAPExitedEvent
| DAPTerminatedEvent
| DAPThreadEvent
| DAPOutputEvent
| DAPBreakpointEvent
| DAPModuleEvent
| DAPLoadedSourceEvent
| DAPProcessEvent
| DAPCapabilitiesEvent
| DAPRunInTerminalRequest
| DAPRunInTerminalResponse
| DAPSetBreakpointsResponse
| DAPSetFunctionBreakpointsResponse
| DAPContinueResponse
| DAPInitializeResponse
| DAPStackTraceResponse
| DAPScopesResponse
| DAPVariablesResponse
| DAPSetVariableResponse
| DAPSourceResponse
| DAPThreadsResponse
| DAPEvaluateResponse.

(** The class a class derives from (the root derives from [object]). *)
Definition superclass (c : class) : option class :=
  match c with
  | DAPMessage => None
  | DAPRequest | DAPEvent | DAPResponse => Some DAPMessage
  | DAPRunInTerminalRequest => Some DAPRequest
  | DAPInitializedEvent | DAPStoppedEvent | DAPContinueEvent | DAPExitedEvent
  | DAPTerminatedEvent | DAPThreadEvent | DAPOutputEvent | DAPBreakpointEvent
  | DAPModuleEvent | DAPLoadedSourceEvent | DAPProcessEvent
  | DAPCapabilitiesEvent => Some DAPEvent
  | DAPErrorResponse | DAPRunInTerminalResponse | DAPSetBreakpointsResponse
  | DAPSetFunctionBreakpointsResponse | DAPContinueResponse
  | DAPInitializeResponse | DAPStackTraceResponse | DAPScopesResponse
  | DAPVariablesResponse | DAPSetVariableResponse | DAPSourceResponse
  | DAPThreadsResponse | DAPEvaluateResponse => Some DAPResponse
  end.

(** An instance: its class and its instance attributes. *)
Record object : Type := { cls : class; attrs : dict }.

Definition new (c : class) : object := {| cls := c; attrs := [] |}.

(** [self.name = v] *)
Definition setattr (self : object) (name : string) (v : pyval) : object :=
  {| cls := cls self; attrs := Dict.set (attrs self) name v |}.

(** [self.name]: an attribute never assigned is an [AttributeError]. *)
Definition getattr (self : object) (name : string) : outcome pyval :=
  match Dict.get (attrs self) name with
  | Some v => Return v
  | None => Raise AttributeError
  end.

(** protocol.py, [DAPMessage.set_seq] *)
Definition set_seq (self : object) (seq : pyval) : object :=
  setattr self "seq" seq.

(** protocol.py, [DAPMessage.remove_nones]:
    [d = {}; for key in dict: if dict[key] is not None: d[key] = dict[key]] *)
Fixpoint remove_nones_loop (src : dict) (keys : list string) (d : dict)
    : outcome dict :=
  match keys with
  | [] => Return d
  | key :: rest =>
      v <- dict_getitem src key ;;
      if negb (is_none v) then
        v' <- dict_getitem src key ;;
        remove_nones_loop src rest (Dict.set d key v')
      else remove_nones_loop src rest d
  end.

Definition remove_nones (src : dict) : outcome dict :=
  remove_nones_loop src (Dict.keys src) [].

(* ================================================================== *)
(** ** Requests *)

(** [def __init__(self, command, **kwargs)] *)
Definition DAPRequest__init__sig : signature :=
  {| params := [("command", None)]; var_kw := true |}.

(** protocol.py, [DAPRequest.__init__] *)
Definition DAPRequest__init__ (self : object) (pos : list pyval) (kw : dict)
    : outcome object :=
  b <- bind_args DAPRequest__init__sig pos kw ;;
  let (bound, kwargs) := b in
  let self := setattr self "command" (arg bound "command") in
  kwargs' <- remove_nones kwargs ;;
  Return (setattr self "kwargs" (PDict kwargs')).

(** [def __init__(self, cwd, args, kind=None, title=None, env=None)] *)
Definition DAPRunInTerminalRequest__init__sig : signature :=
  {| params := [("cwd", None); ("args", None); ("kind", Some PNone);
                ("title", Some PNone); ("env", Some PNone)];
     var_kw := false |}.

(** protocol.py, [DAPRunInTerminalRequest.__init__]:
    [DAPRequest.__init__(self, "runInTerminal", kind, title, cwd, args, env)] *)
Definition DAPRunInTerminalRequest__init__ (self : object) (pos : list pyval)
    (kw : dict) : outcome object :=
  b <- bind_args DAPRunInTerminalRequest__init__sig pos kw ;;
  let (bound, _) := b in
  DAPRequest__init__ self
    [PStr "runInTerminal"; arg bound "kind"; arg bound "title";
     arg bound "cwd"; arg bound "args"; arg bound "env"] [].

(** Instantiation of the two request classes with positional and keyword
    arguments. *)
Definition DAPRequest_new (pos : list pyval) (kw : dict) : outcome object :=
  DAPRequest__init__ (new DAPRequest) pos kw.

Definition DAPRunInTerminalRequest_new (pos : list pyval) (kw : dict)
    : outcome object :=
  DAPRunInTerminalRequest__init__ (new DAPRunInTerminalRequest) pos kw.

(** protocol.py, [DAPMessage.recv], after [body = DAPMessage.recv_raw(socket)]:
    [[
    if body is not None:
        kwargs = body["arguments"]
        if kwargs is None:
            kwargs = {}
        rq = DAPRequest(command=body["command"], **kwargs)
        rq.set_seq(body["seq"])
        return rq
    ]]
    A function that falls off its end returns [None]. *)
Definition recv_body (body : pyval) : outcome (option object) :=
  if negb (is_none body) then
    kwargs <- subscript body "arguments" ;;
    let kwargs := if is_none kwargs then PDict [] else kwargs in
    command <- subscript body "command" ;;
    kw <- unpack_mapping kwargs ;;
    rq <- DAPRequest_new [] (("command", command) :: kw) ;;
    seq <- subscript body "seq" ;;
    Return (Some (set_seq rq seq))
  else Return None.

Section Receive.

Variable json_loads : string -> outcome pyval.

(** protocol.py, [DAPMessage.recv] *)
Definition recv (fuel : nat) (sock : socket) : outcome (option object * socket) :=
  r <- recv_raw json_loads fuel sock ;;
  let (body, sock') := r in
  rq <- recv_body body ;;
  Return (rq, sock').

End Receive.

(* ================================================================== *)
(** ** The dicts a serializer builds *)

(** [serialize] creates the [message] dict, the [serialize_*_context]
    methods create a [body] dict, store it under [message["body"]] and
    fill it afterwards: the two names denote one object. The dicts under
    construction therefore live in a store, addressed by position, and an
    entry holds either a finished value or the address of such a dict. *)
Inductive hval : Type :=
| HVal (v : pyval)
| HRef (a : nat).

Definition hdict := list (string * hval).
Definition heap := list hdict.

Module HDict.

Fixpoint get (d : hdict) (k : string) : option hval :=
  match d with
  | [] => None
  | (k', v) :: r => if String.eqb k' k then Some v else get r k
  end.

Fixpoint set (d : hdict) (k : string) (v : hval) : hdict :=
  match d with
  | [] => [(k, v)]
  | (k', v') :: r =>
      if String.eqb k' k then (k', v) :: r else (k', v') :: set r k v
  end.

End HDict.

(** Store-passing computations that may raise. *)
Definition M (A : Type) : Type := heap -> outcome (A * heap).

Definition retM {A} (a : A) : M A := fun h => Return (a, h).

Definition bindM {A B} (m : M A) (k : A -> M B) : M B :=
  fun h => match m h with
           | Return (a, h') => k a h'
           | Raise e => Raise e
           | OutOfFuel => OutOfFuel
           end.

Definition lift {A} (o : outcome A) : M A :=
  fun h => match o with
           | Return a => Return (a, h)
           | Raise e => Raise e
           | OutOfFuel => OutOfFuel
           end.

Notation "x <~ m ;; k" := (bindM m (fun x => k))
  (at level 61, m at next level, right associativity) : py_scope.
Notation "m ;;; k" := (bindM m (fun _ => k))
  (at level 61, right associativity) : py_scope.

Definition pass : M unit := retM tt.

(** [{}] *)
Definition new_dict : M nat :=
  fun h => Return (List.length h, h ++ [[]]).

Fixpoint update_at (h : heap) (a : nat) (f : hdict -> hdict) : heap :=
  match h, a with
  | [], _ => []
  | d :: r, O => f d :: r
  | d :: r, S a' => d :: update_at r a' f
  end.

(** [d[k] = v] on the dict at address [d]. *)
Definition setitem (d : nat) (k : string) (v : hval) : M unit :=
  fun h => Return (tt, update_at h d (fun e => HDict.set e k v)).

(** [d[k]] on the dict at address [d]. *)
Definition getitem (d : nat) (k : string) : M hval :=
  fun h => match HDict.get (nth d h []) k with
           | Some v => Return (v, h)
           | None => Raise KeyError
           end.

(** [target[k] = v] where [target] is the result of an expression: a dict
    under construction is updated; the values stored in objects are not
    assigned into by this module. *)
Definition setitem_at (target : hval) (k : string) (v : hval) : M unit :=
  match target with
  | HRef a => setitem a k v
  | HVal _ => lift (Raise TypeError)
  end.

(** What [json.dumps] sees when handed a dict of the store: every address
    replaced by the dict found there. A chain of addresses longer than the
    store is a cycle, which [json.dumps] refuses with [ValueError]. *)
Fixpoint resolve (fuel : nat) (h : heap) (v : hval) : outcome pyval :=
  match fuel with
  | O => Raise ValueError
  | S fuel' =>
      match v with
      | HVal v => Return v
      | HRef a =>
          d <- (fix entries (d : hdict) : outcome dict :=
                  match d with
                  | [] => Return []
                  | (k, x) :: r =>
                      x' <- resolve fuel' h x ;;
                      r' <- entries r ;;
                      Return ((k, x') :: r')
                  end) (nth a h []) ;;
          Return (PDict d)
      end
  end.

(* ================================================================== *)
(** ** Constructors of the responses and events *)

(** Each [__init__] takes the instance and its arguments in the order of
    the Python signature; an argument left out at the call is its default,
    [None] wherever the signature says [=None]. *)

Definition DAPEvent__init__ (self : object) (event : pyval) : object :=
  setattr self "event" event.

(** [def __init__(self, rqs, command, success=True, message=None)] *)
Definition DAPResponse__init__ (self : object) (rqs command success message : pyval)
    : object :=
  let self := setattr self "rqs" rqs in
  let self := setattr self "command" command in
  let self := setattr self "success" success in
  setattr self "message" message.

(** [def __init__(self, rqs, command, message='', detailed_message=None)] *)
Definition DAPErrorResponse__init__ (self : object)
    (rqs command message detailed_message : pyval) : object :=
  let self := DAPResponse__init__ self rqs command (PBool false) message in
  setattr self "dm" detailed_message.

Definition DAPInitializedEvent__init__ (self : object) : object :=
  DAPEvent__init__ self (PStr "initialized").

Definition DAPStoppedEvent__init__ (self : object)
    (reason description thread_id preserve_focus_hint text all_threads_stopped : pyval)
    : object :=
  let self := DAPEvent__init__ self (PStr "stopped") in
  let self := setattr self "reason" reason in
  let self := setattr self "description" description in
  let self := setattr self "thread_id" thread_id in
  let self := setattr self "preserve_focus_hint" preserve_focus_hint in
  let self := setattr self "text" text in
  setattr self "all_threads_stopped" all_threads_stopped.

Definition DAPContinueEvent__init__ (self : object)
    (thread_id all_threads_continue : pyval) : object :=
  let self := DAPEvent__init__ self (PStr "continued") in
  let self := setattr self "thread_id" thread_id in
  setattr self "all_threads_continue" all_threads_continue.

Definition DAPExitedEvent__init__ (self : object) (ec : pyval) : object :=
  let self := DAPEvent__init__ self (PStr "exited") in
  setattr self "ec" ec.

Definition DAPTerminatedEvent__init__ (self : object) (restart : pyval) : object :=
  let self := DAPEvent__init__ self (PStr "terminated") in
  setattr self "restart" restart.

Definition DAPThreadEvent__init__ (self : object) (reason thread_id : pyval)
    : object :=
  let self := DAPEvent__init__ self (PStr "thread") in
  let self := setattr self "reason" reason in
  setattr self "thread_id" thread_id.

Definition DAPOutputEvent__init__ (self : object)
    (output category variables_reference source line column data : pyval)
    : object :=
  let self := DAPEvent__init__ self (PStr "output") in
  let self := setattr self "output" output in
  let self := setattr self "category" category in
  let self := setattr self "variables_reference" variables_reference in
  let self := setattr self "source" source in
  let self := setattr self "line" line in
  let self := setattr self "column" column in
  setattr self "data" data.

Definition DAPBreakpointEvent__init__ (self : object) (reason breakpoint : pyval)
    : object :=
  let self := DAPEvent__init__ self (PStr "breakpoint") in
  let self := setattr self "reason" reason in
  setattr self "breakpoint" breakpoint.

Definition DAPModuleEvent__init__ (self : object) (reason module : pyval)
    : object :=
  let self := DAPEvent__init__ self (PStr "module") in
  let self := setattr self "reason" reason in
  setattr self "module" module.

Definition DAPLoadedSourceEvent__init__ (self : object) (reason source : pyval)
    : object :=
  let self := DAPEvent__init__ self (PStr "loadedSource") in
  let self := setattr self "reason" reason in
  setattr self "source" source.

Definition DAPProcessEvent__init__ (self : object)
    (name process_id is_local start_method : pyval) : object :=
  let self := DAPEvent__init__ self (PStr "process") in
  let self := setattr self "name" name in
  let self := setattr self "process_id" process_id in
  let self := setattr self "is_local" is_local in
  setattr self "start_method" start_method.

Definition DAPCapabilitiesEvent__init__ (self : object) (capabilities : pyval)
    : object :=
  let self := DAPEvent__init__ self (PStr "capabilities") in
  setattr self "capabilities" capabilities.

(** The responses call [DAPResponse.__init__(self, rqs, "<command>")], which
    leaves [success=True] and [message=None]. *)
Definition DAPRunInTerminalResponse__init__ (self : object)
    (rqs process_id shell_process_id : pyval) : object :=
  let self := DAPResponse__init__ self rqs (PStr "runInTerminal") (PBool true) PNone in
  let self := setattr self "process_id" process_id in
  setattr self "shell_process_id" shell_process_id.

Definition DAPSetBreakpointsResponse__init__ (self : object)
    (rqs breakpoints : pyval) : object :=
  let self := DAPResponse__init__ self rqs (PStr "setBreakpoints") (PBool true) PNone in
  setattr self "breakpoints" breakpoints.

Definition DAPSetFunctionBreakpointsResponse__init__ (self : object)
    (rqs breakpoints : pyval) : object :=
  let self :=
    DAPResponse__init__ self rqs (PStr "setFunctionBreakpoints") (PBool true) PNone in
  setattr self "breakpoints" breakpoints.

Definition DAPContinueResponse__init__ (self : object)
    (rqs all_threads_continue : pyval) : object :=
  let self := DAPResponse__init__ self rqs (PStr "continue") (PBool true) PNone in
  setattr self "all_threads_continue" all_threads_continue.

Definition DAPInitializeResponse__init__ (self : object)
    (rqs capabilities : pyval) : object :=
  let self := DAPResponse__init__ self rqs (PStr "initialize") (PBool true) PNone in
  setattr self "capabilities" capabilities.

Definition DAPStackTraceResponse__init__ (self : object)
    (rqs stack_frames : pyval) : object :=
  let self := DAPResponse__init__ self rqs (PStr "stackTrace") (PBool true) PNone in
  setattr self "stack_frames" stack_frames.

Definition DAPScopesResponse__init__ (self : object) (rqs scopes : pyval)
    : object :=
  let self := DAPResponse__init__ self rqs (PStr "scopes") (PBool true) PNone in
  setattr self "scopes" scopes.

Definition DAPVariablesResponse__init__ (self : object) (rqs variables : pyval)
    : object :=
  let self := DAPResponse__init__ self rqs (PStr "variables") (PBool true) PNone in
  setattr self "variables" variables.

Definition DAPSetVariableResponse__init__ (self : object)
    (rqs value type variables_reference named_variables indexed_variables : pyval)
    : object :=
  let self := DAPResponse__init__ self rqs (PStr "setVariable") (PBool true) PNone in
  let self := setattr self "value" value in
  let self := setattr self "type" type in
  let self := setattr self "variables_reference" variables_reference in
  let self := setattr self "named_variables" named_variables in
  setattr self "indexed_variables" indexed_variables.

Definition DAPSourceResponse__init__ (self : object)
    (rqs source mime_type : pyval) : object :=
  let self := DAPResponse__init__ self rqs (PStr "source") (PBool true) PNone in
  let self := setattr self "source" source in
  setattr self "mime_type" mime_type.

Definition DAPThreadsResponse__init__ (self : object) (rqs threads : pyval)
    : object :=
  let self := DAPResponse__init__ self rqs (PStr "threads") (PBool true) PNone in
  setattr self "threads" threads.

Definition DAPEvaluateResponse__init__ (self : object)
    (rqs result type presentation_hint variables_reference named_variables
       indexed_variables : pyval) : object :=
  let self := DAPResponse__init__ self rqs (PStr "evaluate") (PBool true) PNone in
  let self := setattr self "result" result in
  let self := setattr self "type" type in
  let self := setattr self "presentation_hint" presentation_hint in
  let self := setattr self "variables_reference" variables_reference in
  let self := setattr self "named_variables" named_variables in
  setattr self "indexed_variables" indexed_variables.

(* ================================================================== *)
(** ** Serialization *)

(** The class among [DAPMessage], [DAPRequest], [DAPEvent], [DAPResponse]
    whose [get_type] and [serialize_context] an instance of [c] inherits:
    the concrete classes derive directly from one of the last three and
    override neither method. *)
Definition family (c : class) : class :=
  match c with
  | DAPMessage | DAPRequest | DAPEvent | DAPResponse => c
  | _ => match superclass c with Some p => p | None => c end
  end.

(** [get_type]: [DAPMessage] raises, [DAPRequest] returns ["type"],
    [DAPEvent] returns ["event"], [DAPResponse] returns ["response"]. *)
Definition get_type (self : object) : outcome pyval :=
  match family (cls self) with
  | DAPRequest => Return (PStr "type")
  | DAPEvent => Return (PStr "event")
  | DAPResponse => Return (PStr "response")
  | _ => Raise NotImplementedError
  end.

(** [target[key] = self.attr] *)
Definition put_attr (self : object) (target : nat) (key attr : string) : M unit :=
  v <~ lift (getattr self attr) ;;
  setitem target key (HVal v).

(** [if self.attr is not None: target[key] = self.attr] *)
Definition put_attr_if_set (self : object) (target : nat) (key attr : string)
    : M unit :=
  v <~ lift (getattr self attr) ;;
  if negb (is_none v) then put_attr self target key attr else pass.

(** [body = {}; message["body"] = body] *)
Definition fresh_body (message : nat) : M nat :=
  body <~ new_dict ;;
  setitem message "body" (HRef body) ;;;
  retM body.

(** The [serialize_event_context] of each event class; [DAPEvent] itself
    raises, and classes outside the event family have no such method. *)
Definition serialize_event_context (self : object) (message : nat) : M unit :=
  match cls self with
  | DAPEvent => lift (Raise NotImplementedError)
  | DAPInitializedEvent => pass
  | DAPStoppedEvent =>
      body <~ fresh_body message ;;
      put_attr self body "reason" "reason" ;;;
      put_attr_if_set self body "description" "description" ;;;
      put_attr_if_set self body "threadId" "thread_id" ;;;
      put_attr_if_set self body "preserveFocusHint" "preserve_focus_hint" ;;;
      put_attr_if_set self body "text" "text" ;;;
      put_attr_if_set self body "allThreadsStopped" "all_threads_stopped"
  | DAPContinueEvent =>
      body <~ fresh_body message ;;
      put_attr self body "threadId" "thread_id" ;;;
      put_attr_if_set self body "allThreadsContinued" "all_threads_continue"
  | DAPExitedEvent =>
      body <~ fresh_body message ;;
      put_attr self body "exitCode" "ec"
  | DAPTerminatedEvent =>
      restart <~ lift (getattr self "restart") ;;
      if negb (is_none restart) then
        body <~ fresh_body message ;;
        put_attr self body "restart" "restart"
      else pass
  | DAPThreadEvent =>
      body <~ fresh_body message ;;
      put_attr self body "reason" "reason" ;;;
      put_attr self body "threadId" "thread_id"
  | DAPOutputEvent =>
      body <~ fresh_body message ;;
      put_attr_if_set self body "category" "category" ;;;
      put_attr self body "output" "output" ;;;
      put_attr_if_set self body "variablesReference" "variables_reference" ;;;
      put_attr_if_set self body "source" "source" ;;;
      put_attr_if_set self body "line" "line" ;;;
      put_attr_if_set self body "column" "column" ;;;
      put_attr_if_set self body "data" "data"
  | DAPBreakpointEvent =>
      body <~ fresh_body message ;;
      put_attr self body "reason" "reason" ;;;
      put_attr self body "breakpoint" "breakpoint"
  | DAPModuleEvent =>
      body <~ fresh_body message ;;
      put_attr self body "reason" "reason" ;;;
      put_attr self body "module" "module"
  | DAPLoadedSourceEvent =>
      body <~ fresh_body message ;;
      put_attr self body "reason" "reason" ;;;
      put_attr self body "source" "source"
  | DAPProcessEvent =>
      body <~ fresh_body message ;;
      put_attr self body "name" "name" ;;;
      put_attr_if_set self body "systemProcessId" "process_id" ;;;
      put_attr_if_set self body "isLocalProcess" "is_local" ;;;
      put_attr_if_set self body "startMethod" "start_method"
  | DAPCapabilitiesEvent =>
      body <~ fresh_body message ;;
      put_attr self body "capabilities" "capabilities"
  | _ => lift (Raise AttributeError)
  end.

(** The [serialize_response_context] of each response class; [DAPResponse]
    itself does nothing. *)
Definition serialize_response_context (self : object) (message : nat) : M unit :=
  match cls self with
  | DAPResponse => pass
  | DAPErrorResponse =>
      (* message["body"] = {} ; if self.dm is not None:
         message["body"]["error"] = self.dm *)
      b <~ new_dict ;;
      setitem message "body" (HRef b) ;;;
      dm <~ lift (getattr self "dm") ;;
      if negb (is_none dm) then
        v <~ lift (getattr self "dm") ;;
        target <~ getitem message "body" ;;
        setitem_at target "error" (HVal v)
      else pass
  | DAPRunInTerminalResponse =>
      body <~ fresh_body message ;;
      put_attr_if_set self body "processId" "process_id" ;;;
      put_attr_if_set self body "shellProcessId" "shell_process_id"
  | DAPSetBreakpointsResponse =>
      body <~ fresh_body message ;;
      put_attr self body "breakpoints" "breakpoints"
  | DAPSetFunctionBreakpointsResponse =>
      body <~ fresh_body message ;;
      put_attr self body "breakpoints" "breakpoints"
  | DAPContinueResponse =>
      body <~ fresh_body message ;;
      put_attr_if_set self body "allThreadsContinued" "all_threads_continue"
  | DAPInitializeResponse =>
      (* body = {} ; message["body"] = self.capabilities *)
      _body <~ new_dict ;;
      put_attr self message "body" "capabilities"
  | DAPStackTraceResponse =>
      body <~ fresh_body message ;;
      put_attr self body "stackFrames" "stack_frames" ;;;
      frames <~ lift (getattr self "stack_frames") ;;
      n <~ lift (py_len frames) ;;
      setitem body "totalFrames" (HVal (PInt n))
  | DAPScopesResponse =>
      body <~ fresh_body message ;;
      put_attr self body "scopes" "scopes"
  | DAPVariablesResponse =>
      body <~ fresh_body message ;;
      put_attr self body "variables" "variables"
  | DAPSetVariableResponse =>
      body <~ fresh_body message ;;
      put_attr self body "value" "value" ;;;
      put_attr_if_set self body "type" "type" ;;;
      put_attr_if_set self body "variablesReference" "variables_reference" ;;;
      put_attr_if_set self body "namedVariables" "named_variables" ;;;
      put_attr_if_set self body "indexedVariables" "indexed_variables"
  | DAPSourceResponse =>
      body <~ fresh_body message ;;
      put_attr self body "source" "source" ;;;
      put_attr_if_set self body "mimeType" "mime_type"
  | DAPThreadsResponse =>
      body <~ fresh_body message ;;
      put_attr self body "threads" "threads"
  | DAPEvaluateResponse =>
      body <~ fresh_body message ;;
      put_attr self body "value" "value" ;;;
      put_attr_if_set self body "type" "type" ;;;
      put_attr_if_set self body "presentationHint" "presentation_hint" ;;;
      put_attr_if_set self body "variablesReference" "variables_reference" ;;;
      put_attr_if_set self body "namedVariables" "named_variables" ;;;
      put_attr_if_set self body "indexedVariables" "indexed_variables"
  | _ => lift (Raise AttributeError)
  end.

(** [serialize_context], by the family of the instance. *)
Definition serialize_context (self : object) (message : nat) : M unit :=
  match family (cls self) with
  | DAPRequest =>
      put_attr self message "command" "command" ;;;
      put_attr self message "args" "kwargs"
  | DAPEvent =>
      put_attr self message "event" "event" ;;;
      serialize_event_context self message
  | DAPResponse =>
      put_attr self message "request_seq" "rqs" ;;;
      put_attr self message "command" "command" ;;;
      put_attr self message "success" "success" ;;;
      put_attr_if_set self message "success" "message" ;;;
      serialize_response_context self message
  | _ => pass
  end.

(** protocol.py, [DAPMessage.serialize], up to the [message] dict. *)
Definition build_message (self : object) (seq : pyval) : M nat :=
  message <~ new_dict ;;
  setitem message "seq" (HVal seq) ;;;
  t <~ lift (get_type self) ;;
  setitem message "type" (HVal t) ;;;
  serialize_context self message ;;;
  retM message.

(** protocol.py, [DAPMessage.serialize]. The result stands for the text
    [json.dumps(message)]: it is the map that text encodes. *)
Definition serialize (self : object) (seq : pyval) : outcome pyval :=
  r <- build_message self seq [] ;;
  let (message, h) := r in
  resolve (S (List.length h)) h (HRef message).

(* ================================================================== *)
(** ** The supported responses and events *)

(** One constructor call of a response or event class of the module,
    with its arguments in signature order. *)
Inductive construction : Type :=
| NewResponse (rqs command success message : pyval)
| NewErrorResponse (rqs command message detailed_message : pyval)
| NewInitializedEvent
| NewStoppedEvent
    (reason description thread_id preserve_focus_hint text all_threads_stopped : pyval)
| NewContinueEvent (thread_id all_threads_continue : pyval)
| NewExitedEvent (ec : pyval)
| NewTerminatedEvent (restart : pyval)
| NewThreadEvent (reason thread_id : pyval)
| NewOutputEvent
    (output category variables_reference source line column data : pyval)
| NewBreakpointEvent (reason breakpoint : pyval)
| NewModuleEvent (reason module : pyval)
| NewLoadedSourceEvent (reason source : pyval)
| NewProcessEvent (name process_id is_local start_method : pyval)
| NewCapabilitiesEvent (capabilities : pyval)
| NewRunInTerminalResponse (rqs process_id shell_process_id : pyval)
| NewSetBreakpointsResponse (rqs breakpoints : pyval)
| NewSetFunctionBreakpointsResponse (rqs breakpoints : pyval)
| NewContinueResponse (rqs all_threads_continue : pyval)
| NewInitializeResponse (rqs capabilities : pyval)
| NewStackTraceResponse (rqs stack_frames : pyval)
| NewScopesResponse (rqs scopes : pyval)
| NewVariablesResponse (rqs variables : pyval)
| NewSetVariableResponse
    (rqs value type variables_reference named_variables indexed_variables : pyval)
| NewSourceResponse (rqs source mime_type : pyval)
| NewThreadsResponse (rqs threads : pyval)
| NewEvaluateResponse
    (rqs result type presentation_hint variables_reference named_variables
       indexed_variables : pyval).

(** The instance the call creates. *)
Definition construct (c : construction) : object :=
  match c with
  | NewResponse rqs command success message =>
      DAPResponse__init__ (new DAPResponse) rqs command success message
  | NewErrorResponse rqs command message dm =>
      DAPErrorResponse__init__ (new DAPErrorResponse) rqs command message dm
  | NewInitializedEvent => DAPInitializedEvent__init__ (new DAPInitializedEvent)
  | NewStoppedEvent reason description thread_id hint text all_stopped =>
      DAPStoppedEvent__init__ (new DAPStoppedEvent)
        reason description thread_id hint text all_stopped
  | NewContinueEvent thread_id all_continue =>
      DAPContinueEvent__init__ (new DAPContinueEvent) thread_id all_continue
  | NewExitedEvent ec => DAPExitedEvent__init__ (new DAPExitedEvent) ec
  | NewTerminatedEvent restart =>
      DAPTerminatedEvent__init__ (new DAPTerminatedEvent) restart
  | NewThreadEvent reason thread_id =>
      DAPThreadEvent__init__ (new DAPThreadEvent) reason thread_id
  | NewOutputEvent output category vref source line column data =>
      DAPOutputEvent__init__ (new DAPOutputEvent)
        output category vref source line column data
  | NewBreakpointEvent reason breakpoint =>
      DAPBreakpointEvent__init__ (new DAPBreakpointEvent) reason breakpoint
  | NewModuleEvent reason module =>
      DAPModuleEvent__init__ (new DAPModuleEvent) reason module
  | NewLoadedSourceEvent reason source =>
      DAPLoadedSourceEvent__init__ (new DAPLoadedSourceEvent) reason source
  | NewProcessEvent name process_id is_local start_method =>
      DAPProcessEvent__init__ (new DAPProcessEvent)
        name process_id is_local start_method
  | NewCapabilitiesEvent capabilities =>
      DAPCapabilitiesEvent__init__ (new DAPCapabilitiesEvent) capabilities
  | NewRunInTerminalResponse rqs process_id shell_process_id =>
      DAPRunInTerminalResponse__init__ (new DAPRunInTerminalResponse)
        rqs process_id shell_process_id
  | NewSetBreakpointsResponse rqs breakpoints =>
      DAPSetBreakpointsResponse__init__ (new DAPSetBreakpointsResponse)
        rqs breakpoints
  | NewSetFunctionBreakpointsResponse rqs breakpoints =>
      DAPSetFunctionBreakpointsResponse__init__
        (new DAPSetFunctionBreakpointsResponse) rqs breakpoints
  | NewContinueResponse rqs all_continue =>
      DAPContinueResponse__init__ (new DAPContinueResponse) rqs all_continue
  | NewInitializeResponse rqs capabilities =>
      DAPInitializeResponse__init__ (new DAPInitializeResponse) rqs capabilities
  | NewStackTraceResponse rqs stack_frames =>
      DAPStackTraceResponse__init__ (new DAPStackTraceResponse) rqs stack_frames
  | NewScopesResponse rqs scopes =>
      DAPScopesResponse__init__ (new DAPScopesResponse) rqs scopes
  | NewVariablesResponse rqs variables =>
      DAPVariablesResponse__init__ (new DAPVariablesResponse) rqs variables
  | NewSetVariableResponse rqs value type vref named indexed =>
      DAPSetVariableResponse__init__ (new DAPSetVariableResponse)
        rqs value type vref named indexed
  | NewSourceResponse rqs source mime_type =>
      DAPSourceResponse__init__ (new DAPSourceResponse) rqs source mime_type
  | NewThreadsResponse rqs threads =>
      DAPThreadsResponse__init__ (new DAPThreadsResponse) rqs threads
  | NewEvaluateResponse rqs result type hint vref named indexed =>
      DAPEvaluateResponse__init__ (new DAPEvaluateResponse)
        rqs result type hint vref named indexed
  end.

Definition is_set (v : pyval) : bool := negb (is_none v).

Definition is_list (v : pyval) : bool :=
  match v with PList _ => true | _ => false end.

(** A valid construction supplies every parameter that has no [=None]
    default with a value other than [None]; the stack frames are a list. *)
Definition valid (c : construction) : bool :=
  match c with
  | NewResponse rqs command success _ =>
      is_set rqs && is_set command && is_set success
  | NewErrorResponse rqs command _ _ => is_set rqs && is_set command
  | NewInitializedEvent => true
  | NewStoppedEvent reason _ _ _ _ _ => is_set reason
  | NewContinueEvent thread_id _ => is_set thread_id
  | NewExitedEvent ec => is_set ec
  | NewTerminatedEvent _ => true
  | NewThreadEvent reason thread_id => is_set reason && is_set thread_id
  | NewOutputEvent output _ _ _ _ _ _ => is_set output
  | NewBreakpointEvent reason breakpoint => is_set reason && is_set breakpoint
  | NewModuleEvent reason module => is_set reason && is_set module
  | NewLoadedSourceEvent reason source => is_set reason && is_set source
  | NewProcessEvent name _ _ _ => is_set name
  | NewCapabilitiesEvent capabilities => is_set capabilities
  | NewRunInTerminalResponse rqs _ _ => is_set rqs
  | NewSetBreakpointsResponse rqs breakpoints => is_set rqs && is_set breakpoints
  | NewSetFunctionBreakpointsResponse rqs breakpoints =>
      is_set rqs && is_set breakpoints
  | NewContinueResponse rqs _ => is_set rqs
  | NewInitializeResponse rqs capabilities => is_set rqs && is_set capabilities
  | NewStackTraceResponse rqs stack_frames => is_set rqs && is_list stack_frames
  | NewScopesResponse rqs scopes => is_set rqs && is_set scopes
  | NewVariablesResponse rqs variables => is_set rqs && is_set variables
  | NewSetVariableResponse rqs value _ _ _ _ => is_set rqs && is_set value
  | NewSourceResponse rqs source _ => is_set rqs && is_set source
  | NewThreadsResponse rqs threads => is_set rqs && is_set threads
  | NewEvaluateResponse rqs result _ _ _ _ _ => is_set rqs && is_set result
  end.

Definition is_evaluate (c : construction) : bool :=
  match c with NewEvaluateResponse _ _ _ _ _ _ _ => true | _ => false end.


(** No entry of the map is [None] (an explicit JSON null). *)
Definition no_null (d : dict) : Prop :=
  forall k v, In (k, v) d -> v <> PNone.



(** The [type] discriminator of the protocol for the family of a class. *)
Definition wire_type (c : class) : option string :=
  match family c with
  | DAPRequest => Some "request"
  | DAPEvent => Some "event"
  | DAPResponse => Some "response"
  | _ => None
  end.

(** The request classes the module defines besides the generic
    [DAPRequest], by the command they stand for. *)
Definition typed_request_class (command : string) : option class :=
  if String.eqb command "runInTerminal" then Some DAPRunInTerminalRequest
  else None.

(** What [NoneDict.__getitem__] answers. *)
Definition NoneDict_lookup (d : dict) (k : string) : pyval :=
  match Dict.get d k with
  | Some v => v
  | None => PNone
  end.

(** The keywords [recv] passes on for a value found under ["arguments"]:
    none when the key is missing or null, the entries of a JSON object. *)
Definition wire_arguments (a : pyval) : option dict :=
  match a with
  | PNone => Some []
  | PDict d | PNoneDict d => Some d
  | _ => None
  end.

(** The entries [remove_nones] keeps. *)
Definition not_none_entries (d : dict) : dict :=
  filter (fun kv => negb (is_none (snd kv))) d.

(** The stream of the truncated frame: a complete header block announcing
    13 characters, 5 characters of body, then the peer closes. *)
Definition truncated_frame : socket :=
  [("Content-Length: 13" ++ Str.CRLF ++ Str.CRLF)%string; "[1,2,"].

(** A header block announcing a negative length, followed by a body. *)
Definition negative_length_frame : socket :=
  [("Content-Length: -5" ++ Str.CRLF ++ Str.CRLF ++ "{}")%string].

(** A decoded runInTerminal request. *)
Definition run_in_terminal_body : pyval :=
  PNoneDict [("seq", PInt 3); ("type", PStr "request");
             ("command", PStr "runInTerminal");
             ("arguments", PNoneDict [("cwd", PStr "/tmp");
                                      ("args", PList [PStr "ls"]);
                                      ("title", PNone)])].

(* ================================================================== *)
(** ** Sending *)

(** The text a stream still delivers, whatever its segments. *)
Definition stream_text (s : socket) : string :=
  fold_right String.append EmptyString s.

(** A blocking [recv] on an open connection returns at least one
    character: no segment of a stream that delivers is empty. *)
Definition delivering (s : socket) : Prop :=
  Forall (fun c => c <> EmptyString) s.

(** [str(n)] for a length: its decimal digits. *)
Definition py_str_of_nat (n : nat) : string :=
  NilEmpty.string_of_uint (Nat.to_uint n).

(** [socket.sendall(data)]: what has been written so far, in order. *)
Definition sock_sendall (data : string) (wire : list string) : list string :=
  wire ++ [data].

(** protocol.py, [DAPMessage.send_text]:
    [[
    socket.sendall("Content-Length: " + str(len(text)) + "\r\n")
    socket.sendall("\r\n")
    socket.sendall(text)
    ]] *)
Definition send_text (text : string) (wire : list string) : list string :=
  let wire :=
    sock_sendall ("Content-Length: " ++ py_str_of_nat (String.length text)
                    ++ Str.CRLF)%string wire in
  let wire := sock_sendall Str.CRLF wire in
  sock_sendall text wire.

(** protocol.py, [DAPMessage.__init__]: [self.seq = None]. The classes
    derived from it do not call it. *)
Definition DAPMessage__init__ (self : object) : object :=
  setattr self "seq" PNone.

Section Sender.

(** [json.dumps], total on the values of [pyval]. *)
Variable json_dumps : pyval -> string.

(** protocol.py, [DAPMessage.send]:
    [data = self.serialize(self.seq); DAPMessage.send_text(socket, data)],
    where [serialize] ends in [json.dumps(message)]. *)
Definition send (self : object) (wire : list string) : outcome (list string) :=
  seq <- getattr self "seq" ;;
  message <- serialize self seq ;;
  Return (send_text (json_dumps message) wire).

End Sender.

(** utils.py, [NoneDict.__init__]:
    [for key in other: self[key] = other[key]] *)
Fixpoint NoneDict_init_loop (other : dict) (keys : list string) (self : dict)
    : outcome dict :=
  match keys with
  | [] => Return self
  | key :: rest =>
      v <- dict_getitem other key ;;
      NoneDict_init_loop other rest (Dict.set self key v)
  end.

Definition NoneDict__init__ (other : dict) : outcome dict :=
  NoneDict_init_loop other (Dict.keys other) [].

(** Every character of the text satisfies [p]. *)
Fixpoint all_chars (p : ascii -> bool) (s : string) : bool :=
  match s with
  | EmptyString => true
  | String c r => p c && all_chars p r
  end.

(** Text that [strip] leaves as it is: it neither starts nor ends with
    whitespace. *)
Definition trimmed (s : string) : Prop :=
  Str.lstrip s = s /\ Str.lstrip (Str.rev s) = Str.rev s.

(** The header line [send_text] writes for a body of [n] characters,
    without its line end. *)
Definition content_length_line (n : nat) : string :=
  ("Content-Length: " ++ py_str_of_nat n)%string.

(** Every line has exactly one colon. *)
Definition one_colon_each (headers : list string) : bool :=
  forallb (fun hl => Nat.eqb (Str.count ":"%char hl) 1) headers.

(** A header entry as [parse_headers] stores it: a trimmed name with a
    trimmed text as value. *)
Definition header_entry (kv : string * pyval) : Prop :=
  trimmed (fst kv) /\ exists v, snd kv = PStr v /\ trimmed v.

(** The event class that sets a given event name in its constructor. *)
Definition event_class (name : string) : option class :=
  if String.eqb name "initialized" then Some DAPInitializedEvent
  else if String.eqb name "stopped" then Some DAPStoppedEvent
  else if String.eqb name "continued" then Some DAPContinueEvent
  else if String.eqb name "exited" then Some DAPExitedEvent
  else if String.eqb name "terminated" then Some DAPTerminatedEvent
  else if String.eqb name "thread" then Some DAPThreadEvent
  else if String.eqb name "output" then Some DAPOutputEvent
  else if String.eqb name "breakpoint" then Some DAPBreakpointEvent
  else if String.eqb name "module" then Some DAPModuleEvent
  else if String.eqb name "loadedSource" then Some DAPLoadedSourceEvent
  else if String.eqb name "process" then Some DAPProcessEvent
  else if String.eqb name "capabilities" then Some DAPCapabilitiesEvent
  else None.

(* ================================================================== *)
(** * Properties *)

(** ** Sample runs *)

Example frame_13 :
  recv_raw_frame 64 [("Content-Length: 13" ++ Str.CRLF ++ Str.CRLF ++ "[1,2,3,4,5,6]")%string]
  = Return (Some "[1,2,3,4,5,6]", []).
Proof. vm_compute. reflexivity. Qed.

Example recv_body_next :
  recv_body (PNoneDict [("seq", PInt 7); ("type", PStr "request");
                        ("command", PStr "next");
                        ("arguments", PNoneDict [("threadId", PInt 1); ("x", PNone)])])
  = Return (Some {| cls := DAPRequest;
                    attrs := [("command", PStr "next");
                              ("kwargs", PDict [("threadId", PInt 1)]);
                              ("seq", PInt 7)] |}).
Proof. reflexivity. Qed.

Example stopped_breakpoint :
  serialize (DAPStoppedEvent__init__ (new DAPStoppedEvent)
               (PStr "breakpoint") PNone (PInt 1) PNone PNone PNone) (PInt 4)
  = Return (PDict [("seq", PInt 4); ("type", PStr "event");
                   ("event", PStr "stopped");
                   ("body", PDict [("reason", PStr "breakpoint");
                                   ("threadId", PInt 1)])]).
Proof. reflexivity. Qed.

Example stack_trace_3 :
  serialize (DAPStackTraceResponse__init__ (new DAPStackTraceResponse)
               (PInt 2) (PList [PDict []; PInt 0; PStr "f"])) (PInt 5)
  = Return (PDict [("seq", PInt 5); ("type", PStr "response");
                   ("request_seq", PInt 2); ("command", PStr "stackTrace");
                   ("success", PBool true);
                   ("body", PDict [("stackFrames", PList [PDict []; PInt 0; PStr "f"]);
                                   ("totalFrames", PInt 3)])]).
Proof. reflexivity. Qed.

Example error_response_detail :
  serialize (DAPErrorResponse__init__ (new DAPErrorResponse)
               (PInt 2) (PStr "next") (PStr "no") (PStr "why")) (PInt 5)
  = Return (PDict [("seq", PInt 5); ("type", PStr "response");
                   ("request_seq", PInt 2); ("command", PStr "next");
                   ("success", PStr "no");
                   ("body", PDict [("error", PStr "why")])]).
Proof. reflexivity. Qed.

(** ** dicts *)

Lemma get_set_same (d : dict) k v : Dict.get (Dict.set d k v) k = Some v.
Proof.
  induction d as [| [k' v'] r IH]; simpl.
  - now rewrite String.eqb_refl.
  - destruct (String.eqb k' k) eqn:E; simpl; rewrite E; auto.
Qed.

Lemma get_set_other (d : dict) k k' v :
  k <> k' -> Dict.get (Dict.set d k v) k' = Dict.get d k'.
Proof.
  intros Hne. induction d as [| [k0 v0] r IH]; simpl.
  - destruct (String.eqb k k') eqn:E; auto.
    apply String.eqb_eq in E. contradiction.
  - destruct (String.eqb k0 k) eqn:E; simpl.
    + apply String.eqb_eq in E. subst k0.
      destruct (String.eqb k k') eqn:E'; auto.
      apply String.eqb_eq in E'. contradiction.
    + destruct (String.eqb k0 k'); auto.
Qed.

Lemma get_none_not_in (d : dict) k :
  Dict.get d k = None <-> ~ In k (Dict.keys d).
Proof.
  induction d as [| [k0 v0] r IH]; simpl.
  - tauto.
  - destruct (String.eqb k0 k) eqn:E.
    + apply String.eqb_eq in E. split; [discriminate | intros H; exfalso; auto].
    + apply String.eqb_neq in E. rewrite IH. tauto.
Qed.

Lemma set_fresh (d : dict) k v :
  Dict.get d k = None -> Dict.set d k v = d ++ [(k, v)].
Proof.
  induction d as [| [k0 v0] r IH]; simpl; auto.
  destruct (String.eqb k0 k); [discriminate |].
  intros H. now rewrite IH.
Qed.

Lemma set_no_null (d : dict) k v :
  no_null d -> v <> PNone -> no_null (Dict.set d k v).
Proof.
  unfold no_null. induction d as [| [k0 v0] r IH]; simpl; intros Hd Hv k' v' Hin.
  - destruct Hin as [Hin | []]. now inversion Hin; subst.
  - destruct (String.eqb k0 k).
    + destruct Hin as [Hin | Hin]; [now inversion Hin; subst | eauto].
    + destruct Hin as [Hin | Hin]; [eauto |].
      eapply IH; eauto.
Qed.

Lemma is_set_true v : is_set v = true -> is_none v = false.
Proof. unfold is_set. destruct (is_none v); simpl; congruence. Qed.

Lemma is_none_false_neq v : is_none v = false -> v <> PNone.
Proof. intros H E. subst. discriminate. Qed.

(** ** Text *)

Lemma split_nonempty sep s : Str.split sep s <> [].
Proof.
  destruct s as [| c r]; simpl; [discriminate |].
  destruct (Ascii.eqb c sep); [discriminate |].
  destruct (Str.split sep r); discriminate.
Qed.

Lemma length_split sep s :
  List.length (Str.split sep s) = S (Str.count sep s).
Proof.
  induction s as [| c r IH]; simpl; auto.
  destruct (Ascii.eqb c sep); simpl.
  - now rewrite IH.
  - destruct (Str.split sep r) eqn:E; simpl in *; congruence.
Qed.

Lemma split_no_sep sep s : Str.count sep s = 0%nat -> Str.split sep s = [s].
Proof.
  induction s as [| c r IH]; simpl; auto.
  destruct (Ascii.eqb c sep); simpl; [discriminate |].
  intros H. now rewrite (IH H).
Qed.

Lemma split_at_first sep name value :
  Str.count sep name = 0%nat ->
  Str.split sep (name ++ String sep value)%string = name :: Str.split sep value.
Proof.
  induction name as [| c r IH]; simpl.
  - intros _. now rewrite Ascii.eqb_refl.
  - destruct (Ascii.eqb c sep); simpl; [discriminate |].
    intros H. now rewrite (IH H).
Qed.

(** ** The header parser *)

Lemma parse_headers_from_app h a b :
  parse_headers_from h (a ++ b) =
  (h' <- parse_headers_from h a ;; parse_headers_from h' b).
Proof.
  revert h. induction a as [| hl a IH]; simpl; intros h; auto.
  destruct (parse_header_line h hl); simpl; auto.
Qed.

Lemma parse_header_line_one_colon h name value :
  Str.count ":"%char name = 0%nat -> Str.count ":"%char value = 0%nat ->
  parse_header_line h (name ++ String ":"%char value)%string
  = Return (Dict.set h (Str.strip name) (PStr (Str.strip value))).
Proof.
  intros Hn Hv. unfold parse_header_line.
  now rewrite (split_at_first _ _ _ Hn), (split_no_sep _ _ Hv).
Qed.

Lemma parse_header_line_other h hl :
  Str.count ":"%char hl <> 1%nat -> parse_header_line h hl = Raise ValueError.
Proof.
  intros Hc. unfold parse_header_line.
  pose proof (length_split ":"%char hl) as L.
  destruct (Str.split ":"%char hl) as [| a [| b [| c l]]]; simpl in L; auto.
  congruence.
Qed.

(** C8, as the code has it. A line with exactly one colon is split there,
    both parts are stripped and the pair is stored under the exact name,
    replacing an earlier value of that name and no other entry; a line with
    no colon or with more than one, so also one whose value holds a colon,
    raises [ValueError]. *)
Theorem C8_header_line_exactly_one_colon :
  forall hs h name value,
    Str.count ":"%char name = 0%nat ->
    Str.count ":"%char value = 0%nat ->
    parse_headers hs = Return h ->
    let h' := Dict.set h (Str.strip name) (PStr (Str.strip value)) in
    parse_headers (hs ++ [(name ++ String ":"%char value)%string]) = Return h'
    /\ Dict.get h' (Str.strip name) = Some (PStr (Str.strip value))
    /\ (forall k, k <> Str.strip name -> Dict.get h' k = Dict.get h k)
    /\ (forall hl, Str.count ":"%char hl <> 1%nat ->
                   parse_headers (hs ++ [hl]) = Raise ValueError).
Proof.
  intros hs h name value Hn Hv Hp h'. unfold parse_headers in *.
  repeat split.
  - rewrite parse_headers_from_app, Hp. simpl.
    now rewrite parse_header_line_one_colon.
  - apply get_set_same.
  - intros k Hk. apply get_set_other. congruence.
  - intros hl Hc. rewrite parse_headers_from_app, Hp. simpl.
    now rewrite parse_header_line_other.
Qed.

Lemma C8_witness :
  parse_headers (["Content-Length: 1" ++ Str.CRLF]%string
                   ++ [(" Content-Length " ++ String ":"%char (" 13" ++ Str.CRLF))%string])
  = Return [("Content-Length", PStr "13")].
Proof.
  apply (C8_header_line_exactly_one_colon
           ["Content-Length: 1" ++ Str.CRLF]%string
           [("Content-Length", PStr "1")]
           " Content-Length " (" 13" ++ Str.CRLF)%string);
    reflexivity.
Defined.

(** C8 as stated fails: the value of this line holds a colon and the line
    is refused. *)
Lemma C8_counterexample :
  (1 <= Str.count ":"%char ("Host: localhost:8080" ++ Str.CRLF)%string)%nat
  /\ parse_headers [("Host: localhost:8080" ++ Str.CRLF)%string] = Raise ValueError.
Proof. split; [vm_compute; lia | reflexivity]. Qed.

(** ** The frame reader *)

Section FrameReader.

Variable json_loads : string -> outcome pyval.


Lemma recv_raw_out_of_fuel fuel sock :
  recv_raw_frame fuel sock = OutOfFuel -> recv_raw json_loads fuel sock = OutOfFuel.
Proof. unfold recv_raw. now intros ->. Qed.

Lemma recv_raw_end_of_stream fuel sock sock' :
  recv_raw_frame fuel sock = Return (None, sock') ->
  recv_raw json_loads fuel sock = Return (PNone, sock').
Proof. unfold recv_raw. now intros ->. Qed.

End FrameReader.

Lemma body_loop_eq fuel sock data size :
  body_loop fuel sock data size =
  if (Z.of_nat (String.length data) <? size)%Z then
    match fuel with
    | O => OutOfFuel
    | S fuel' =>
        let (c, sock') :=
          sock_recv (Z.to_nat (size - Z.of_nat (String.length data))) sock in
        let data := (data ++ c)%string in
        if String.eqb data EmptyString then Return (None, sock')
        else body_loop fuel' sock' data size
    end
  else Return (Some data, sock).
Proof. destruct fuel; reflexivity. Qed.


Lemma recv_raw_frame_after_headers fuel sock hs sock' h :
  header_loop fuel sock [] EmptyString = Return (Some hs, sock') ->
  parse_headers hs = Return h ->
  recv_raw_frame fuel sock =
  (v <- NoneDict_getitem h "Content-Length" ;;
   content_size <- py_int v ;;
   body_loop fuel sock' EmptyString content_size).
Proof.
  intros Hh Hp. unfold recv_raw_frame. rewrite Hh. simpl. now rewrite Hp.
Qed.


(** The frame reader on a negative length: it returns an empty body and
    leaves the characters that follow the header block unread. *)
Example negative_length_frame_read :
  Str.parse_int "-5" = Some (-5)%Z
  /\ recv_raw_frame 64 negative_length_frame = Return (Some EmptyString, ["{}"]).
Proof. split; reflexivity. Qed.

(** With part of the body in hand and the stream closed, the body loop
    makes no progress: every further read is empty and [data] stays what it
    is, not the empty string the loop tests for. *)
Lemma body_loop_closed_partial fuel data size :
  data <> EmptyString ->
  (Z.of_nat (String.length data) < size)%Z ->
  body_loop fuel [] data size = OutOfFuel.
Proof.
  intros Hd Hlt. apply Z.ltb_lt in Hlt.
  induction fuel as [| fuel IH]; rewrite body_loop_eq, Hlt; auto.
  cbn [sock_recv].
  assert (E : (data ++ EmptyString)%string = data).
  { clear. induction data; simpl; congruence. }
  rewrite E.
  destruct (String.eqb data EmptyString) eqn:E'.
  - apply String.eqb_eq in E'. contradiction.
  - exact IH.
Qed.

(** The stream closed before the first body character: the loop returns
    [None]. *)
Lemma body_loop_closed_empty fuel size :
  (0 < size)%Z -> body_loop (S fuel) [] EmptyString size = Return (None, []).
Proof.
  intros H. rewrite body_loop_eq. apply Z.ltb_lt in H.
  cbn [String.length Z.of_nat]. now rewrite H.
Qed.

(** The stream closed inside the header block: [None]. *)
Lemma header_loop_closed fuel headers line :
  header_loop (S fuel) [] headers line = Return (None, []).
Proof. reflexivity. Qed.

Lemma truncated_frame_header fuel :
  header_loop (22 + fuel) truncated_frame [] EmptyString
  = Return (Some [("Content-Length: 13" ++ Str.CRLF)%string], ["[1,2,"]).
Proof. reflexivity. Qed.

(** C1 on the code: the header block announces 13 characters, 5 arrive and
    the peer closes. [recv_raw] does not return [None]; whatever number of
    iterations it is allowed, it is still in a loop when they are used up. *)
Theorem C1_truncated_body_never_returns :
  forall json_loads fuel, recv_raw json_loads fuel truncated_frame = OutOfFuel.
Proof.
  intros json_loads fuel. apply recv_raw_out_of_fuel.
  destruct (Nat.lt_ge_cases fuel 22) as [Hlt | Hge].
  - do 22 (destruct fuel as [| fuel]; [reflexivity |]). lia.
  - replace fuel with (22 + (fuel - 22))%nat by lia.
    unfold recv_raw_frame. rewrite truncated_frame_header.
    generalize (fuel - 22)%nat as f. intros f.
    change (body_loop (S (21 + f)) ["[1,2,"] EmptyString 13 = OutOfFuel).
    rewrite body_loop_eq.
    change (body_loop (21 + f) [] "[1,2," 13 = OutOfFuel).
    apply body_loop_closed_partial; [discriminate | cbn; lia].
Qed.

(** ** Argument binding *)

(** A call that goes wrong goes wrong with [TypeError]. *)
Definition only_TypeError {A} (o : outcome A) : Prop :=
  match o with
  | Return _ => True
  | Raise e => e = TypeError
  | OutOfFuel => False
  end.

Lemma bind_positional_only ps pos : only_TypeError (bind_positional ps pos).
Proof.
  revert ps. induction pos as [| v pos IH]; intros ps; simpl.
  - exact I.
  - destruct ps as [| [name d] ps]; simpl; [reflexivity |].
    specialize (IH ps).
    destruct (bind_positional ps pos) as [[b r] | e |]; simpl in *; tauto.
Qed.

Lemma bind_keywords_only ps vk kw bound extra :
  only_TypeError (bind_keywords ps vk kw bound extra).
Proof.
  revert bound extra.
  induction kw as [| [k v] kw IH]; intros bound extra; simpl; [exact I |].
  destruct (String.eqb k receiver || Dict.mem bound k); simpl; [reflexivity |].
  destruct (is_param ps k); [apply IH |].
  destruct vk; simpl; [| reflexivity].
  destruct (Dict.mem extra k); simpl; [reflexivity | apply IH].
Qed.

Lemma bind_defaults_only ps bound : only_TypeError (bind_defaults ps bound).
Proof.
  revert bound.
  induction ps as [| [name d] ps IH]; intros bound; simpl; [exact I |].
  destruct (Dict.mem bound name); [apply IH |].
  destruct d; simpl; [apply IH | reflexivity].
Qed.

Lemma bind_args_only sg pos kw : only_TypeError (bind_args sg pos kw).
Proof.
  unfold bind_args.
  pose proof (bind_positional_only (params sg) pos) as H1.
  destruct (bind_positional (params sg) pos) as [[b r] | e |]; simpl in *; auto.
  pose proof (bind_keywords_only r (var_kw sg) kw b []) as H2.
  destruct (bind_keywords r (var_kw sg) kw b []) as [[b' x] | e |]; simpl in *; auto.
  pose proof (bind_defaults_only r b') as H3.
  destruct (bind_defaults r b') as [b'' | e |]; simpl in *; auto.
Qed.

(** C10. Whatever positional and keyword arguments it is called with,
    [DAPRunInTerminalRequest(...)] raises [TypeError]: either its own
    parameters cannot be bound, or they can and the six positional
    arguments handed to [DAPRequest.__init__] meet its single positional
    parameter. *)
Theorem C10_run_in_terminal_request_always_raises :
  forall pos kw, DAPRunInTerminalRequest_new pos kw = Raise TypeError.
Proof.
  intros pos kw.
  unfold DAPRunInTerminalRequest_new, DAPRunInTerminalRequest__init__.
  pose proof (bind_args_only DAPRunInTerminalRequest__init__sig pos kw) as H.
  destruct (bind_args DAPRunInTerminalRequest__init__sig pos kw)
    as [[bound extra] | e |]; simpl in *.
  - reflexivity.
  - now subst.
  - contradiction.
Qed.

(** ** remove_nones *)

Lemma get_app_not_in (a b : dict) k :
  ~ In k (Dict.keys a) -> Dict.get (a ++ b) k = Dict.get b k.
Proof.
  induction a as [| [k0 v0] a IH]; simpl; auto.
  intros H. destruct (String.eqb k0 k) eqn:E.
  - apply String.eqb_eq in E. exfalso. auto.
  - apply IH. tauto.
Qed.

Lemma get_head (d : dict) k v : Dict.get ((k, v) :: d) k = Some v.
Proof. simpl. now rewrite String.eqb_refl. Qed.

Lemma keys_app (a b : dict) : Dict.keys (a ++ b) = Dict.keys a ++ Dict.keys b.
Proof. apply map_app. Qed.

Lemma remove_nones_loop_no_null src keys acc r :
  remove_nones_loop src keys acc = Return r -> no_null acc -> no_null r.
Proof.
  revert acc. induction keys as [| key keys IH]; simpl; intros acc H Hacc.
  - now inversion H; subst.
  - unfold dict_getitem in H.
    destruct (Dict.get src key) as [v |]; simpl in H; [| discriminate].
    destruct (is_none v) eqn:E; simpl in H.
    + eapply IH; eauto.
    + eapply IH; eauto. apply set_no_null; auto. now apply is_none_false_neq.
Qed.

Lemma remove_nones_loop_distinct pre suf acc :
  NoDup (Dict.keys (pre ++ suf)) ->
  (forall k, In k (Dict.keys acc) -> In k (Dict.keys pre)) ->
  remove_nones_loop (pre ++ suf) (Dict.keys suf) acc
  = Return (acc ++ not_none_entries suf).
Proof.
  revert pre acc. induction suf as [| [k v] suf IH]; intros pre acc Hnd Hacc; simpl.
  - now rewrite app_nil_r.
  - assert (Hk : ~ In k (Dict.keys pre)).
    { rewrite keys_app in Hnd. simpl in Hnd.
      apply NoDup_remove_2 in Hnd. intros Hin. apply Hnd.
      apply in_or_app. now left. }
    unfold dict_getitem. rewrite (get_app_not_in pre _ k Hk), get_head. simpl.
    replace (pre ++ (k, v) :: suf) with ((pre ++ [(k, v)]) ++ suf) in *
      by now rewrite <- app_assoc.
    destruct (is_none v) eqn:E; simpl.
    + rewrite IH; auto.
      intros k' Hin. rewrite keys_app. apply in_or_app. left. auto.
    + rewrite set_fresh by (apply get_none_not_in; intros Hin; auto).
      rewrite IH; auto.
      * now rewrite <- app_assoc.
      * intros k' Hin. rewrite keys_app in *. apply in_app_or in Hin.
        apply in_or_app. destruct Hin as [Hin | Hin]; [left; auto | now right].
Qed.

(** On a dict (every key once) [remove_nones] returns the entries that are
    not [None], in their order. *)
Lemma remove_nones_distinct d :
  NoDup (Dict.keys d) -> remove_nones d = Return (not_none_entries d).
Proof.
  intros H. unfold remove_nones.
  apply (remove_nones_loop_distinct [] d []); simpl; auto.
Qed.

Lemma not_none_entries_insert_none d1 d2 k :
  not_none_entries (d1 ++ (k, PNone) :: d2) = not_none_entries (d1 ++ d2).
Proof. unfold not_none_entries. now rewrite !filter_app. Qed.

(** ** Keywords that end up in [**kwargs] *)

Lemma mem_get_none (d : dict) k : Dict.mem d k = false <-> Dict.get d k = None.
Proof. unfold Dict.mem. destruct (Dict.get d k); split; congruence. Qed.

Lemma mem_false_not_in (d : dict) k :
  Dict.mem d k = false <-> ~ In k (Dict.keys d).
Proof. rewrite mem_get_none. apply get_none_not_in. Qed.

Lemma get_insert_other (a b : dict) k k' v :
  k' <> k -> Dict.get (a ++ (k, v) :: b) k' = Dict.get (a ++ b) k'.
Proof.
  intros Hne. induction a as [| [k0 v0] a IH]; simpl.
  - destruct (String.eqb k k') eqn:E; auto.
    apply String.eqb_eq in E. congruence.
  - now rewrite IH.
Qed.

Lemma mem_insert_other (a b : dict) k k' v :
  k' <> k -> Dict.mem (a ++ (k, v) :: b) k' = Dict.mem (a ++ b) k'.
Proof. intros H. unfold Dict.mem. now rewrite get_insert_other. Qed.

Lemma mem_snoc_other (a : dict) k k' v :
  k' <> k -> Dict.mem a k = false -> Dict.mem (a ++ [(k', v)]) k = false.
Proof.
  intros Hne H. replace a with (a ++ []) in H by apply app_nil_r.
  now rewrite mem_insert_other by congruence.
Qed.

Lemma nodup_keys_snoc (a : dict) k v :
  NoDup (Dict.keys a) -> Dict.mem a k = false -> NoDup (Dict.keys (a ++ [(k, v)])).
Proof.
  intros Hnd Hm. apply mem_false_not_in in Hm.
  rewrite keys_app. simpl.
  apply NoDup_rev in Hnd.
  rewrite <- (rev_involutive (Dict.keys a ++ [k])).
  apply NoDup_rev. rewrite rev_app_distr. simpl.
  constructor; auto. now rewrite <- in_rev.
Qed.

(** The keywords collected in [**kwargs] are distinct. *)
Lemma keywords_extra_distinct ps vk kw bound e0 b e :
  NoDup (Dict.keys e0) ->
  bind_keywords ps vk kw bound e0 = Return (b, e) ->
  NoDup (Dict.keys e).
Proof.
  revert bound e0. induction kw as [| [k v] kw IH]; intros bound e0 Hnd H; simpl in H.
  - now inversion H; subst.
  - destruct (String.eqb k receiver || Dict.mem bound k); [discriminate |].
    destruct (is_param ps k); [eapply IH; eauto |].
    destruct vk; [| discriminate].
    destruct (Dict.mem e0 k) eqn:E; [discriminate |].
    eapply IH; [| eauto]. now apply nodup_keys_snoc.
Qed.

(** A keyword [k] already collected does not change how the remaining
    keywords, all different from [k], are bound. *)
Lemma keywords_after_insert ps k kw bound e0 s b e :
  ~ In k (Dict.keys kw) ->
  bind_keywords ps true kw bound (e0 ++ s) = Return (b, e) ->
  exists s', e = e0 ++ s'
             /\ bind_keywords ps true kw bound (e0 ++ (k, PNone) :: s)
                = Return (b, e0 ++ (k, PNone) :: s').
Proof.
  revert bound s. induction kw as [| [k' v] kw IH]; intros bound s Hk H; simpl in *.
  - inversion H; subst. eauto.
  - assert (Hne : k' <> k) by tauto.
    destruct (String.eqb k' receiver || Dict.mem bound k'); [discriminate |].
    destruct (is_param ps k').
    + apply IH; tauto.
    + rewrite mem_insert_other by assumption.
      destruct (Dict.mem (e0 ++ s) k'); [discriminate |].
      rewrite <- app_assoc in H.
      destruct (IH bound (s ++ [(k', v)])) as [s' [E R]]; [tauto | exact H |].
      exists s'. split; auto.
      now rewrite <- app_assoc.
Qed.

(** An extra keyword [k] that is no parameter, with any value, only adds
    its entry to [**kwargs]. *)
Lemma keywords_insert_none ps k kw1 kw2 bound e0 b e :
  is_param ps k = false ->
  String.eqb k receiver = false ->
  Dict.mem bound k = false ->
  Dict.mem e0 k = false ->
  ~ In k (Dict.keys kw1) -> ~ In k (Dict.keys kw2) ->
  bind_keywords ps true (kw1 ++ kw2) bound e0 = Return (b, e) ->
  exists e1 e2, e = e1 ++ e2
                /\ bind_keywords ps true (kw1 ++ (k, PNone) :: kw2) bound e0
                   = Return (b, e1 ++ (k, PNone) :: e2).
Proof.
  intros Hp Hr. revert bound e0.
  induction kw1 as [| [k' v] kw1 IH]; intros bound e0 Hb He H1 H2 H; simpl in *.
  - rewrite Hr, Hb, Hp, He. simpl.
    replace e0 with (e0 ++ []) in H by apply app_nil_r.
    destruct (keywords_after_insert ps k kw2 bound e0 [] b e H2 H) as [s' [E R]].
    exists e0, s'. auto.
  - assert (Hne : k' <> k) by tauto.
    destruct (String.eqb k' receiver || Dict.mem bound k'); [discriminate |].
    destruct (is_param ps k').
    + apply IH; auto. now apply mem_snoc_other.
    + destruct (Dict.mem e0 k'); [discriminate |].
      apply IH; auto. now apply mem_snoc_other.
Qed.

(** Keywords that name neither the receiver nor a parameter all go to
    [**kwargs], in their order. *)
Lemma keywords_all_extra ps kw bound e0 :
  (forall k, In k (Dict.keys kw) ->
             String.eqb k receiver = false /\ Dict.mem bound k = false
             /\ is_param ps k = false) ->
  NoDup (Dict.keys (e0 ++ kw)) ->
  bind_keywords ps true kw bound e0 = Return (bound, e0 ++ kw).
Proof.
  revert e0. induction kw as [| [k v] kw IH]; intros e0 Hk Hnd; simpl.
  - now rewrite app_nil_r.
  - destruct (Hk k) as [Hr [Hb Hp]]; [simpl; auto |].
    rewrite Hr, Hb, Hp. simpl.
    assert (Hm : Dict.mem e0 k = false).
    { apply mem_false_not_in. rewrite keys_app in Hnd. simpl in Hnd.
      apply NoDup_remove_2 in Hnd. intros Hin. apply Hnd.
      apply in_or_app. now left. }
    rewrite Hm.
    replace (e0 ++ (k, v) :: kw) with ((e0 ++ [(k, v)]) ++ kw) in *
      by now rewrite <- app_assoc.
    apply IH; auto.
    intros k' Hin. apply Hk. simpl. auto.
Qed.

Lemma positional_rest ps pos bound rest :
  bind_positional ps pos = Return (bound, rest) ->
  (forall k, is_param rest k = true -> is_param ps k = true)
  /\ (forall k, Dict.mem bound k = true -> is_param ps k = true).
Proof.
  revert ps bound rest.
  induction pos as [| v pos IH]; intros ps bound rest H; simpl in H.
  - inversion H; subst. split; auto. discriminate.
  - destruct ps as [| [name d] ps]; [discriminate |].
    destruct (bind_positional ps pos) as [[b r] | e |] eqn:E; simpl in H;
      try discriminate.
    inversion H; subst. destruct (IH _ _ _ E) as [A B].
    split; intros k Hk; simpl.
    + rewrite (A k Hk). apply orb_true_r.
    + unfold Dict.mem in Hk. simpl in Hk.
      destruct (String.eqb name k); auto.
      apply B. exact Hk.
Qed.

Lemma mem_single a (v : pyval) k : Dict.mem [(a, v)] k = String.eqb a k.
Proof. unfold Dict.mem. cbn [Dict.get]. now destruct (String.eqb a k). Qed.

Lemma is_param_single a (d : option pyval) k :
  is_param [(a, d)] k = String.eqb a k.
Proof. unfold is_param. cbn [existsb fst]. apply orb_false_r. Qed.

(** The generic request built from a command and distinct keywords that
    name no parameter: the command as given, the keywords without their
    [None] entries. *)
Lemma DAPRequest_new_keywords command kw :
  NoDup (Dict.keys kw) ->
  ~ In "command" (Dict.keys kw) ->
  ~ In "self" (Dict.keys kw) ->
  DAPRequest_new [] (("command", command) :: kw)
  = Return {| cls := DAPRequest;
              attrs := [("command", command);
                        ("kwargs", PDict (not_none_entries kw))] |}.
Proof.
  intros Hnd Hc Hs.
  unfold DAPRequest_new, DAPRequest__init__, bind_args. simpl.
  rewrite (keywords_all_extra [("command", None)] kw [("command", command)] []).
  - simpl. rewrite remove_nones_distinct by assumption. reflexivity.
  - intros k Hin. repeat split.
    + apply String.eqb_neq. intros ->. apply Hs. exact Hin.
    + rewrite mem_single. apply String.eqb_neq. intros <-. contradiction.
    + rewrite is_param_single. apply String.eqb_neq. intros <-. contradiction.
  - exact Hnd.
Qed.

(** ** Requests *)

Lemma NoneDict_getitem_lookup b k :
  NoneDict_getitem b k = Return (NoneDict_lookup b k).
Proof.
  unfold NoneDict_getitem, Dict.mem, dict_getitem, NoneDict_lookup.
  now destruct (Dict.get b k).
Qed.

Lemma no_null_nil : no_null [].
Proof. intros k v []. Qed.

(** C9, as the code has it. The [kwargs] a constructed [DAPRequest]
    stores has no [None] entry, and the request is the same one had the
    keywords carried, at any place, one more argument whose value is
    [None], provided that argument is not named [command] or [self]. *)
Theorem C9_request_kwargs_hold_no_none :
  forall pos kw1 kw2 rq,
    DAPRequest_new pos (kw1 ++ kw2) = Return rq ->
    (exists kwargs, Dict.get (attrs rq) "kwargs" = Some (PDict kwargs)
                    /\ no_null kwargs)
    /\ (forall k, k <> "command" -> k <> "self" ->
                  ~ In k (Dict.keys (kw1 ++ kw2)) ->
                  DAPRequest_new pos (kw1 ++ (k, PNone) :: kw2) = Return rq).
Proof.
  intros pos kw1 kw2 rq H.
  unfold DAPRequest_new, DAPRequest__init__, bind_args in *.
  change (params DAPRequest__init__sig) with [("command", @None pyval)] in *.
  change (var_kw DAPRequest__init__sig) with true in *.
  destruct (bind_positional [("command", None)] pos) as [[b0 rest] | |] eqn:EP;
    cbn [bind] in H; try discriminate.
  destruct (bind_keywords rest true (kw1 ++ kw2) b0 []) as [[b e] | |] eqn:EK;
    cbn [bind] in H; try discriminate.
  destruct (bind_defaults rest b) as [b' | |] eqn:ED; cbn [bind] in H;
    try discriminate.
  destruct (remove_nones e) as [kwargs | |] eqn:ER; cbn [bind] in H;
    try discriminate.
  inversion H; subst rq; clear H.
  split.
  - exists kwargs. split.
    + unfold setattr. cbn [attrs]. apply get_set_same.
    + eapply remove_nones_loop_no_null; [exact ER | apply no_null_nil].
  - intros k Hc Hs Hk.
    destruct (positional_rest _ _ _ _ EP) as [A B].
    assert (Hp : is_param rest k = false).
    { destruct (is_param rest k) eqn:E; auto.
      apply A in E. rewrite is_param_single in E.
      apply String.eqb_eq in E. congruence. }
    assert (Hb : Dict.mem b0 k = false).
    { destruct (Dict.mem b0 k) eqn:E; auto.
      apply B in E. rewrite is_param_single in E.
      apply String.eqb_eq in E. congruence. }
    assert (Hr : String.eqb k receiver = false) by now apply String.eqb_neq.
    rewrite keys_app in Hk.
    destruct (keywords_insert_none rest k kw1 kw2 b0 [] b e) as [e1 [e2 [Ee R]]];
      auto.
    { intros Hin. apply Hk, in_or_app. now left. }
    { intros Hin. apply Hk, in_or_app. now right. }
    cbn [bind]. rewrite R. cbn [bind]. rewrite ED. cbn [bind].
    pose proof (keywords_extra_distinct _ _ _ _ [] _ _ (NoDup_nil _) R) as Hnd'.
    pose proof (keywords_extra_distinct _ _ _ _ [] _ _ (NoDup_nil _) EK) as Hnd.
    rewrite (remove_nones_distinct _ Hnd'), not_none_entries_insert_none.
    rewrite (remove_nones_distinct _ Hnd) in ER. subst e.
    inversion ER; subst kwargs. reflexivity.
Qed.

Lemma C9_witness :
  (exists kwargs,
      Dict.get (attrs {| cls := DAPRequest;
                         attrs := [("command", PStr "next");
                                   ("kwargs", PDict [("threadId", PInt 1)])] |})
        "kwargs" = Some (PDict kwargs)
      /\ no_null kwargs)
  /\ DAPRequest_new [PStr "next"]
       ([("threadId", PInt 1)] ++ ("restart", PNone) :: [("x", PNone)])
     = Return {| cls := DAPRequest;
                 attrs := [("command", PStr "next");
                           ("kwargs", PDict [("threadId", PInt 1)])] |}.
Proof.
  destruct (C9_request_kwargs_hold_no_none
              [PStr "next"] [("threadId", PInt 1)] [("x", PNone)] _ eq_refl)
    as [A B].
  split; [exact A |].
  apply B; [discriminate | discriminate |].
  simpl. intuition discriminate.
Defined.

(** C9 as stated fails for two names: with a null argument named
    [command] or [self] no request is built, without it one is. *)
Lemma C9_counterexample :
  recv_body (PNoneDict [("seq", PInt 1); ("command", PStr "next");
                        ("arguments", PNoneDict [("self", PNone)])])
  = Raise TypeError
  /\ recv_body (PNoneDict [("seq", PInt 1); ("command", PStr "next");
                           ("arguments", PNoneDict [("command", PNone)])])
     = Raise TypeError
  /\ recv_body (PNoneDict [("seq", PInt 1); ("command", PStr "next");
                           ("arguments", PNoneDict [])])
     = Return (Some {| cls := DAPRequest;
                       attrs := [("command", PStr "next");
                                 ("kwargs", PDict []);
                                 ("seq", PInt 1)] |}).
Proof. repeat split. Qed.

(** C3, as the code has it. From a decoded map whose ["arguments"] are
    missing, null or an object with distinct keys other than [command] and
    [self], [recv] builds an instance of the generic [DAPRequest], whatever
    the command: it carries the value found under ["command"], the
    arguments without their null entries, and the value found under
    ["seq"]. *)
Theorem C3_recv_builds_generic_request :
  forall b d,
    wire_arguments (NoneDict_lookup b "arguments") = Some d ->
    NoDup (Dict.keys d) ->
    ~ In "command" (Dict.keys d) ->
    ~ In "self" (Dict.keys d) ->
    recv_body (PNoneDict b)
    = Return (Some {| cls := DAPRequest;
                      attrs := [("command", NoneDict_lookup b "command");
                                ("kwargs", PDict (not_none_entries d));
                                ("seq", NoneDict_lookup b "seq")] |}).
Proof.
  intros b d Hw Hnd Hc Hs.
  unfold recv_body. cbn [is_none negb subscript].
  rewrite !NoneDict_getitem_lookup. cbn [bind].
  assert (Hu : unpack_mapping
                 (if is_none (NoneDict_lookup b "arguments") then PDict []
                  else NoneDict_lookup b "arguments") = Return d).
  { destruct (NoneDict_lookup b "arguments"); simpl in *;
      try discriminate Hw; now inversion Hw. }
  rewrite Hu. cbn [bind].
  rewrite DAPRequest_new_keywords by assumption.
  reflexivity.
Qed.

Lemma C3_witness :
  recv_body run_in_terminal_body
  = Return (Some {| cls := DAPRequest;
                    attrs := [("command", PStr "runInTerminal");
                              ("kwargs", PDict [("cwd", PStr "/tmp");
                                                ("args", PList [PStr "ls"])]);
                              ("seq", PInt 3)] |}).
Proof.
  apply (C3_recv_builds_generic_request
           [("seq", PInt 3); ("type", PStr "request");
            ("command", PStr "runInTerminal");
            ("arguments", PNoneDict [("cwd", PStr "/tmp");
                                     ("args", PList [PStr "ls"]);
                                     ("title", PNone)])]
           [("cwd", PStr "/tmp"); ("args", PList [PStr "ls"]); ("title", PNone)]).
  - reflexivity.
  - repeat constructor; simpl; intuition discriminate.
  - simpl; intuition discriminate.
  - simpl; intuition discriminate.
Defined.

(** C3 as stated fails: the module defines [DAPRunInTerminalRequest] for
    the command [runInTerminal], and [recv] builds a plain [DAPRequest] for
    it; the null [title] of the arguments is not carried over. *)
Lemma C3_counterexample :
  typed_request_class "runInTerminal" = Some DAPRunInTerminalRequest
  /\ recv_body run_in_terminal_body
     = Return (Some {| cls := DAPRequest;
                       attrs := [("command", PStr "runInTerminal");
                                 ("kwargs", PDict [("cwd", PStr "/tmp");
                                                   ("args", PList [PStr "ls"])]);
                                 ("seq", PInt 3)] |})
  /\ DAPRequest <> DAPRunInTerminalRequest
  /\ subscript run_in_terminal_body "arguments"
     <> Return (PNoneDict [("cwd", PStr "/tmp"); ("args", PList [PStr "ls"])]).
Proof. repeat split; try reflexivity; discriminate. Qed.

(** ** Serialization *)

(** C2 on the code. A response whose [message] is the text [s] is
    serialized with [s] stored under the key [success], where the success
    flag was, and with no [message] key. *)
Theorem C2_message_replaces_success :
  forall rqs command success s seq,
    let m := [("seq", seq); ("type", PStr "response"); ("request_seq", rqs);
              ("command", command); ("success", PStr s)] in
    serialize (construct (NewResponse rqs command success (PStr s))) seq
    = Return (PDict m)
    /\ Dict.get m "success" = Some (PStr s)
    /\ Dict.get m "message" = None.
Proof. intros. repeat split. Qed.

(** C4 on the code. [DAPEvaluateResponse.__init__] stores the result as
    [self.result] and [serialize_response_context] reads [self.value]:
    serializing raises [AttributeError], whatever the arguments. *)
Theorem C4_evaluate_response_raises :
  forall rqs result type presentation_hint variables_reference named_variables
         indexed_variables seq,
    serialize
      (construct (NewEvaluateResponse rqs result type presentation_hint
                    variables_reference named_variables indexed_variables)) seq
    = Raise AttributeError.
Proof. reflexivity. Qed.

Lemma DAPRequest_new_shape pos kw rq :
  DAPRequest_new pos kw = Return rq ->
  exists command kwargs,
    rq = {| cls := DAPRequest;
            attrs := [("command", command); ("kwargs", PDict kwargs)] |}.
Proof.
  unfold DAPRequest_new, DAPRequest__init__. intros H.
  destruct (bind_args DAPRequest__init__sig pos kw) as [[bound extra] | |];
    cbn [bind] in H; try discriminate.
  destruct (remove_nones extra) as [kwargs | |]; cbn [bind] in H; try discriminate.
  inversion H. eexists. eexists. reflexivity.
Qed.

Lemma DAPRequest_new_only pos kw : only_TypeError (DAPRequest_new pos kw).
Proof.
  unfold DAPRequest_new, DAPRequest__init__.
  pose proof (bind_args_only DAPRequest__init__sig pos kw) as H.
  destruct (bind_args DAPRequest__init__sig pos kw) as [[bound extra] | |];
    cbn [bind]; auto.
  unfold remove_nones.
  assert (G : forall keys acc,
             (forall k, In k keys -> In k (Dict.keys extra)) ->
             exists r, remove_nones_loop extra keys acc = Return r).
  { induction keys as [| key keys IH]; intros acc Hk; simpl; eauto.
    unfold dict_getitem.
    destruct (Dict.get extra key) as [v |] eqn:E.
    - cbn [bind]. destruct (is_none v); cbn [negb bind]; apply IH;
        intros k Hin; apply Hk; now right.
    - apply get_none_not_in in E. exfalso. apply E, Hk. now left. }
  destruct (G (Dict.keys extra) []) as [r ->]; [auto | exact I].
Qed.

(** C5 on the code. Constructing a [DAPRequest] either fails with
    [TypeError] or gives a request that serializes to a map with [seq] and
    with [type] equal to the text ["type"], which is not the discriminator
    ["request"] of its family. *)
Theorem C5_request_type_is_type :
  forall pos kw seq,
    match DAPRequest_new pos kw with
    | Return rq =>
        exists m, serialize rq seq = Return (PDict m)
                  /\ Dict.get m "seq" = Some seq
                  /\ Dict.get m "type" = Some (PStr "type")
                  /\ wire_type (cls rq) = Some "request"
    | Raise e => e = TypeError
    | OutOfFuel => False
    end.
Proof.
  intros pos kw seq.
  pose proof (DAPRequest_new_only pos kw) as Ho.
  pose proof (DAPRequest_new_shape pos kw) as Hs.
  destruct (DAPRequest_new pos kw) as [rq | e |]; auto.
  destruct (Hs rq eq_refl) as [command [kwargs ->]].
  eexists. repeat split.
Qed.

Ltac valid_facts :=
  repeat match goal with
    | H : _ && _ = true |- _ => apply andb_prop in H; destruct H
    | H : is_set _ = true |- _ => apply is_set_true in H
    | H : is_list ?v = true |- _ => destruct v; try discriminate H; clear H
    end.

Ltac split_none :=
  repeat match goal with
    | H : is_none ?x = _ |- context [is_none ?x] => rewrite H
    | H : is_none ?x = _, H' : context [is_none ?x] |- _ => rewrite H in H'
    | |- context [is_none ?x] => destruct (is_none x) eqn:?
    | H' : context [is_none ?x] |- _ =>
        lazymatch type of H' with
        | is_none x = _ => fail
        | _ => destruct (is_none x) eqn:?
        end
    end.



(** The responses and events carry the discriminator of their family. *)
Lemma response_event_type c seq :
  valid c = true -> is_evaluate c = false ->
  exists m, serialize (construct c) seq = Return (PDict m)
            /\ Dict.get m "seq" = Some seq
            /\ option_map PStr (wire_type (cls (construct c))) = Dict.get m "type".
Proof.
  intros Hv He. destruct c; try discriminate He; simpl in Hv; valid_facts.
  all: cbv -[is_none]; split_none; eexists; repeat split.
Qed.







(** The terminated event with and without [restart]. *)
Example terminated_without_restart :
  serialize (construct (NewTerminatedEvent PNone)) (PInt 9)
  = Return (PDict [("seq", PInt 9); ("type", PStr "event");
                   ("event", PStr "terminated")]).
Proof. reflexivity. Qed.

Example terminated_with_restart :
  serialize (construct (NewTerminatedEvent (PBool true))) (PInt 9)
  = Return (PDict [("seq", PInt 9); ("type", PStr "event");
                   ("event", PStr "terminated");
                   ("body", PDict [("restart", PBool true)])]).
Proof. reflexivity. Qed.

Example request_serialized_type :
  bind (DAPRequest_new [PStr "next"] [("threadId", PInt 1)])
       (fun rq => serialize rq (PInt 1))
  = Return (PDict [("seq", PInt 1); ("type", PStr "type");
                   ("command", PStr "next");
                   ("args", PDict [("threadId", PInt 1)])]).
Proof. reflexivity. Qed.

Example error_response_default_message :
  serialize (construct (NewErrorResponse (PInt 2) (PStr "next") (PStr EmptyString) PNone))
            (PInt 5)
  = Return (PDict [("seq", PInt 5); ("type", PStr "response");
                   ("request_seq", PInt 2); ("command", PStr "next");
                   ("success", PStr EmptyString); ("body", PDict [])]).
Proof. reflexivity. Qed.

(* ================================================================== *)
(** * Further properties *)

(** ** Text *)

Lemma append_nil_r (s : string) : (s ++ EmptyString)%string = s.
Proof. induction s; simpl; congruence. Qed.

Lemma append_assoc (a b c : string) :
  ((a ++ b) ++ c)%string = (a ++ (b ++ c))%string.
Proof. induction a; simpl; congruence. Qed.

Lemma length_append (a b : string) :
  String.length (a ++ b) = (String.length a + String.length b)%nat.
Proof. induction a; simpl; auto. Qed.

Lemma rev_onto_append (a b acc : string) :
  Str.rev_onto (a ++ b) acc = Str.rev_onto b (Str.rev_onto a acc).
Proof. revert acc. induction a; simpl; auto. Qed.

Lemma rev_onto_acc (a acc : string) :
  Str.rev_onto a acc = (Str.rev a ++ acc)%string.
Proof.
  unfold Str.rev. revert acc. induction a as [| c a IH]; intros acc; simpl; auto.
  rewrite IH, (IH (String c EmptyString)), append_assoc. reflexivity.
Qed.

Lemma rev_append (a b : string) :
  Str.rev (a ++ b) = (Str.rev b ++ Str.rev a)%string.
Proof.
  unfold Str.rev at 1. rewrite rev_onto_append, rev_onto_acc. reflexivity.
Qed.

Lemma rev_involutive (a : string) : Str.rev (Str.rev a) = a.
Proof.
  induction a as [| c a IH]; auto.
  change (String c a) with (String c EmptyString ++ a)%string at 1.
  rewrite rev_append, rev_append, IH. reflexivity.
Qed.

Lemma take_drop n (s : string) : (Str.take n s ++ Str.drop n s)%string = s.
Proof.
  revert s. induction n as [| n IH]; intros s; simpl; auto.
  destruct s as [| c s]; simpl; auto. now rewrite IH.
Qed.

Lemma length_take n (s : string) :
  String.length (Str.take n s) = Nat.min n (String.length s).
Proof.
  revert s. induction n as [| n IH]; intros s; simpl; auto.
  destruct s as [| c s]; simpl; auto.
Qed.

Lemma endswith_not_lf x c :
  c <> Str.LF -> Str.endswith (x ++ String c EmptyString) Str.CRLF = false.
Proof.
  intros Hc. unfold Str.endswith. rewrite rev_append.
  cbn [Str.rev Str.rev_onto Str.CRLF String.append String.prefix].
  destruct (ascii_dec Str.LF c) as [E | E]; [congruence | reflexivity].
Qed.

Lemma endswith_crlf x : Str.endswith (x ++ Str.CRLF) Str.CRLF = true.
Proof.
  unfold Str.endswith. rewrite rev_append.
  cbn [Str.rev Str.rev_onto Str.CRLF String.append String.prefix].
  destruct (ascii_dec Str.LF Str.LF) as [_ | E]; [| congruence].
  destruct (ascii_dec Str.CR Str.CR) as [_ | E]; [| congruence].
  now destruct (Str.rev x).
Qed.

(** ** Reading from a stream that delivers *)

Lemma delivering_empty_text sock :
  delivering sock -> stream_text sock = EmptyString -> sock = [].
Proof.
  intros Hd Ht. destruct sock as [| seg rest]; auto.
  inversion Hd as [| ? ? Hseg _]; subst. simpl in Ht.
  destruct seg; [congruence | discriminate].
Qed.

(** Reading one character. *)
Lemma recv_one sock c r :
  delivering sock -> stream_text sock = String c r ->
  exists sock', sock_recv 1 sock = (String c EmptyString, sock')
                /\ delivering sock' /\ stream_text sock' = r.
Proof.
  intros Hd Ht. destruct sock as [| seg rest]; [discriminate |].
  inversion Hd as [| ? ? Hseg Hrest]; subst.
  destruct seg as [| c' seg]; [congruence |].
  simpl in Ht. inversion Ht; subst. clear Ht.
  destruct seg as [| c'' seg].
  - exists rest. simpl. auto.
  - exists (String c'' seg :: rest). simpl. repeat split; auto.
    constructor; [discriminate | assumption].
Qed.

(** Reading up to [n] characters: at least one and at most [n] arrive. *)
Lemma recv_some n sock :
  delivering sock -> (0 < n)%nat -> stream_text sock <> EmptyString ->
  exists c sock', sock_recv n sock = (c, sock')
                  /\ c <> EmptyString
                  /\ (String.length c <= n)%nat
                  /\ stream_text sock = (c ++ stream_text sock')%string
                  /\ delivering sock'.
Proof.
  intros Hd Hn Ht. destruct sock as [| seg rest]; [now elim Ht |].
  inversion Hd as [| ? ? Hseg Hrest]; subst.
  unfold sock_recv. destruct (String.length seg <=? n)%nat eqn:E.
  - apply Nat.leb_le in E. exists seg, rest. repeat split; auto.
  - apply Nat.leb_gt in E.
    exists (Str.take n seg), (Str.drop n seg :: rest). repeat split.
    + destruct n; [lia |]. destruct seg; [congruence | discriminate].
    + rewrite length_take. lia.
    + simpl. now rewrite <- append_assoc, take_drop.
    + constructor; auto. intros Hdrop.
      pose proof (take_drop n seg) as Htd. rewrite Hdrop, append_nil_r in Htd.
      pose proof (length_take n seg) as Hl. rewrite Htd in Hl. lia.
Qed.

(** One header line: the characters of [s], free of line feeds, then
    CRLF. The loop reads them one by one and either ends the header block
    (the line is CRLF alone) or records the line and starts the next. *)
Lemma header_loop_line s :
  forall acc f sock headers rest,
    delivering sock ->
    stream_text sock = (s ++ Str.CRLF ++ rest)%string ->
    Str.count Str.LF s = 0%nat ->
    exists sock',
      delivering sock' /\ stream_text sock' = rest
      /\ header_loop (String.length s + 2 + f) sock headers acc
         = if String.eqb (acc ++ s ++ Str.CRLF) Str.CRLF
           then Return (Some headers, sock')
           else header_loop f sock' (headers ++ [(acc ++ s ++ Str.CRLF)%string])
                  EmptyString.
Proof.
  induction s as [| c s IH]; intros acc f sock headers rest Hd Ht Hc.
  - simpl in Ht.
    destruct (recv_one _ _ _ Hd Ht) as [s1 [R1 [D1 T1]]].
    destruct (recv_one _ _ _ D1 T1) as [s2 [R2 [D2 T2]]].
    exists s2. repeat split; auto.
    cbn [String.length Nat.add header_loop]. rewrite R1.
    cbn [String.eqb Ascii.eqb]. rewrite endswith_not_lf by discriminate.
    rewrite R2. cbn [String.eqb].
    rewrite append_assoc. cbn [String.append].
    change (String Str.CR (String Str.LF EmptyString)) with Str.CRLF.
    rewrite (endswith_crlf acc). reflexivity.
  - simpl in Ht. simpl in Hc.
    destruct (Ascii.eqb c Str.LF) eqn:E; [discriminate |].
    apply Ascii.eqb_neq in E.
    destruct (recv_one _ _ _ Hd Ht) as [s1 [R1 [D1 T1]]].
    destruct (IH (acc ++ String c EmptyString)%string f s1 headers rest D1 T1 Hc)
      as [s2 [D2 [T2 H2]]].
    exists s2. repeat split; auto.
    cbn [String.length Nat.add header_loop]. rewrite R1.
    cbn [String.eqb]. rewrite endswith_not_lf by assumption.
    rewrite H2. rewrite !append_assoc. reflexivity.
Qed.

Lemma append_split (a b c d : string) :
  (a ++ b)%string = (c ++ d)%string ->
  (String.length c <= String.length a)%nat ->
  exists a', a = (c ++ a')%string /\ d = (a' ++ b)%string.
Proof.
  revert a. induction c as [| x c IH]; intros a H L; simpl in *.
  - exists a. auto.
  - destruct a as [| y a]; simpl in *; [lia |].
    inversion H; subst.
    destruct (IH a) as [a' [E1 E2]]; auto; [lia |].
    exists a'. subst. auto.
Qed.

Lemma append_not_empty_r (a c : string) :
  c <> EmptyString -> (a ++ c)%string <> EmptyString.
Proof. destruct a; simpl; [auto | discriminate]. Qed.

(** The body loop on a stream that holds the whole body: it returns the
    body and leaves the stream right behind it, however the body arrives. *)
Lemma body_loop_reads fuel :
  forall text data sock rest,
    delivering sock ->
    stream_text sock = (text ++ rest)%string ->
    (String.length text <= fuel)%nat ->
    exists sock',
      body_loop fuel sock data
        (Z.of_nat (String.length data + String.length text))
      = Return (Some (data ++ text)%string, sock')
      /\ delivering sock' /\ stream_text sock' = rest.
Proof.
  induction fuel as [| fuel IH]; intros text data sock rest Hd Ht Hf;
    rewrite body_loop_eq.
  - destruct text; [| simpl in Hf; lia].
    destruct (Z.ltb_spec (Z.of_nat (String.length data))
                (Z.of_nat (String.length data + String.length EmptyString)))
      as [L | L]; [simpl in L; lia |].
    exists sock. rewrite append_nil_r. auto.
  - destruct (Z.ltb_spec (Z.of_nat (String.length data))
                (Z.of_nat (String.length data + String.length text)))
      as [L | L].
    + assert (Hne : stream_text sock <> EmptyString).
      { rewrite Ht. destruct text; [simpl in L; lia | discriminate]. }
      replace (Z.to_nat (Z.of_nat (String.length data + String.length text)
                         - Z.of_nat (String.length data)))
        with (String.length text) by lia.
      destruct (recv_some (String.length text) sock Hd) as
        [c [sock1 [R [Hc [Hl [Hs D1]]]]]]; [lia | assumption |].
      rewrite R. cbv zeta. rewrite Ht in Hs.
      destruct (append_split _ _ _ _ Hs Hl) as [text' [E1 E2]].
      destruct (String.eqb (data ++ c) EmptyString) eqn:E.
      { apply String.eqb_eq in E. now apply append_not_empty_r in E. }
      destruct (IH text' (data ++ c)%string sock1 rest D1 E2) as [sock' [B [D' T']]].
      { subst text. rewrite length_append in Hf.
        destruct c; [congruence | simpl in *; lia]. }
      exists sock'. repeat split; auto.
      subst text. rewrite length_append, <- Nat.add_assoc in B.
      rewrite length_append, B. now rewrite append_assoc.
    + assert (text = EmptyString) by (destruct text; [auto | simpl in L; lia]).
      subst text. exists sock. rewrite append_nil_r. auto.
Qed.

(** ** Digits and whitespace *)

Lemma all_chars_append p a b :
  all_chars p (a ++ b) = all_chars p a && all_chars p b.
Proof. induction a; simpl; auto. now rewrite IHa, andb_assoc. Qed.

Lemma all_chars_rev p a : all_chars p (Str.rev a) = all_chars p a.
Proof.
  induction a as [| c a IH]; auto.
  change (String c a) with (String c EmptyString ++ a)%string at 1.
  rewrite rev_append, all_chars_append, IH. simpl.
  now rewrite andb_true_r, andb_comm.
Qed.

Lemma count_append c a b :
  Str.count c (a ++ b) = (Str.count c a + Str.count c b)%nat.
Proof. induction a; simpl; auto. rewrite IHa. lia. Qed.

Lemma digit_not_space c : Str.is_digit c = true -> Str.isspace c = false.
Proof.
  destruct c as [[] [] [] [] [] [] [] []]; try reflexivity; discriminate.
Qed.

Lemma digits_count c s :
  Str.is_digit c = false -> all_chars Str.is_digit s = true ->
  Str.count c s = 0%nat.
Proof.
  intros Hc. induction s as [| x s IH]; simpl; auto.
  intros H. apply andb_prop in H. destruct H as [Hx Hs].
  destruct (Ascii.eqb x c) eqn:E.
  - apply Ascii.eqb_eq in E. congruence.
  - now apply IH.
Qed.

Lemma lstrip_spaces ws s :
  all_chars Str.isspace ws = true -> Str.lstrip (ws ++ s) = Str.lstrip s.
Proof.
  induction ws as [| c ws IH]; simpl; auto.
  intros H. apply andb_prop in H. destruct H as [Hc Hw]. now rewrite Hc, IH.
Qed.

Lemma lstrip_keeps_head s t :
  s <> EmptyString -> Str.lstrip s = s -> Str.lstrip (s ++ t) = (s ++ t)%string.
Proof.
  destruct s as [| c s]; [congruence |]. intros _. simpl.
  destruct (Str.isspace c) eqn:E; auto.
  intros H. exfalso.
  assert (L : forall x, (String.length (Str.lstrip x) <= String.length x)%nat).
  { induction x as [| y x IHx]; simpl; auto.
    destruct (Str.isspace y); simpl; lia. }
  pose proof (L s) as Hl. rewrite H in Hl. simpl in Hl. lia.
Qed.

(** [strip] removes whitespace around trimmed text and nothing else. *)
Lemma strip_surrounded ws1 core ws2 :
  all_chars Str.isspace ws1 = true ->
  all_chars Str.isspace ws2 = true ->
  trimmed core ->
  Str.strip (ws1 ++ core ++ ws2) = core.
Proof.
  intros H1 H2 [Hl Hr]. unfold Str.strip, Str.rstrip.
  rewrite lstrip_spaces by assumption.
  destruct core as [| c core].
  - simpl. rewrite <- (append_nil_r ws2), lstrip_spaces by assumption.
    simpl. rewrite <- (append_nil_r (Str.rev EmptyString)). reflexivity.
  - rewrite lstrip_keeps_head by (auto; discriminate).
    rewrite rev_append, lstrip_spaces by now rewrite all_chars_rev.
    rewrite Hr. apply rev_involutive.
Qed.

Lemma digits_trimmed s : all_chars Str.is_digit s = true -> trimmed s.
Proof.
  assert (G : forall x, all_chars Str.is_digit x = true -> Str.lstrip x = x).
  { intros [| c x]; simpl; auto. intros H. apply andb_prop in H.
    destruct H as [Hc _]. now rewrite (digit_not_space c Hc). }
  intros H. split; [now apply G |]. apply G. now rewrite all_chars_rev.
Qed.

Lemma strip_trimmed s : trimmed s -> Str.strip s = s.
Proof.
  intros H. pose proof (strip_surrounded EmptyString s EmptyString eq_refl eq_refl H) as E.
  simpl in E. now rewrite append_nil_r in E.
Qed.

Lemma uint_digits d : all_chars Str.is_digit (NilEmpty.string_of_uint d) = true.
Proof. induction d; simpl; auto. Qed.

Lemma uint_value d a :
  Str.digits (NilEmpty.string_of_uint d) (Z.of_nat a)
  = Some (Z.of_nat (Nat.of_uint_acc d a)).
Proof.
  revert a. induction d; intros a; cbn [NilEmpty.string_of_uint Str.digits Nat.of_uint_acc];
    auto; rewrite Nat.tail_mul_spec;
    match goal with
    | |- context [Str.is_digit ?c] =>
        change (Str.is_digit c) with true; cbv iota
    end;
    rewrite <- IHd; f_equal; cbn [nat_of_ascii]; vm_compute (nat_of_ascii _ - 48)%nat; lia.
Qed.

Lemma str_of_nat_digits n : all_chars Str.is_digit (py_str_of_nat n) = true.
Proof. apply uint_digits. Qed.

Lemma str_of_nat_not_empty n : py_str_of_nat n <> EmptyString.
Proof.
  unfold py_str_of_nat.
  assert (H : Nat.to_uint n <> Nil).
  { rewrite <- (DecimalNat.Unsigned.of_to n) at 1.
    rewrite DecimalNat.Unsigned.to_of. apply DecimalFacts.unorm_nonnil. }
  destruct (Nat.to_uint n); simpl; congruence.
Qed.

Lemma digit_not_int_space c : Str.is_digit c = true -> Str.int_space c = false.
Proof.
  destruct c as [[] [] [] [] [] [] [] []]; try reflexivity; discriminate.
Qed.

Lemma int_lstrip_digits s :
  all_chars Str.is_digit s = true -> Str.int_lstrip s = s.
Proof.
  destruct s as [| c s]; simpl; auto. intros H. apply andb_prop in H.
  destruct H as [Hc _]. now rewrite (digit_not_int_space c Hc).
Qed.

Lemma int_strip_digits s :
  all_chars Str.is_digit s = true -> Str.int_strip s = s.
Proof.
  intros H. unfold Str.int_strip.
  rewrite (int_lstrip_digits s H).
  rewrite int_lstrip_digits by now rewrite all_chars_rev.
  apply rev_involutive.
Qed.

(** [int(str(n))] is [n]. *)
Lemma parse_int_str_of_nat n : Str.parse_int (py_str_of_nat n) = Some (Z.of_nat n).
Proof.
  unfold Str.parse_int.
  rewrite int_strip_digits by apply str_of_nat_digits.
  pose proof (str_of_nat_digits n) as Hd.
  pose proof (str_of_nat_not_empty n) as Hn.
  unfold py_str_of_nat in *.
  pose proof (uint_value (Nat.to_uint n) 0) as Hv.
  change (Nat.of_uint_acc (Nat.to_uint n) 0) with (Nat.of_uint (Nat.to_uint n)) in Hv.
  rewrite DecimalNat.Unsigned.of_to in Hv. simpl (Z.of_nat 0) in Hv.
  destruct (NilEmpty.string_of_uint (Nat.to_uint n)) as [| c r]; [congruence |].
  simpl in Hd. apply andb_prop in Hd. destruct Hd as [Hc _].
  assert (Hm : Ascii.eqb c "-" = false).
  { destruct (Ascii.eqb c "-") eqn:E; auto. apply Ascii.eqb_eq in E. subst. discriminate. }
  assert (Hp : Ascii.eqb c "+" = false).
  { destruct (Ascii.eqb c "+") eqn:E; auto. apply Ascii.eqb_eq in E. subst. discriminate. }
  rewrite Hm, Hp. unfold Str.number. now rewrite Hc.
Qed.

(** ** Frames written by [send_text] *)

Lemma stream_text_app a b :
  stream_text (a ++ b) = (stream_text a ++ stream_text b)%string.
Proof.
  induction a as [| s a IH]; simpl; auto. now rewrite IH, append_assoc.
Qed.

Lemma send_text_stream text wire :
  stream_text (send_text text wire)
  = (stream_text wire ++ content_length_line (String.length text)
       ++ Str.CRLF ++ Str.CRLF ++ text)%string.
Proof.
  unfold send_text, sock_sendall, content_length_line.
  rewrite !stream_text_app. cbn [stream_text fold_right].
  rewrite !append_nil_r, !append_assoc. reflexivity.
Qed.

Lemma content_length_line_no_lf n :
  Str.count Str.LF (content_length_line n) = 0%nat.
Proof.
  unfold content_length_line. rewrite count_append.
  rewrite (digits_count Str.LF _ eq_refl (str_of_nat_digits n)).
  reflexivity.
Qed.

Lemma content_length_line_parsed n :
  parse_headers [(content_length_line n ++ Str.CRLF)%string]
  = Return [("Content-Length", PStr (py_str_of_nat n))].
Proof.
  assert (E : (content_length_line n ++ Str.CRLF)%string
              = ("Content-Length"
                   ++ String ":" (" " ++ py_str_of_nat n ++ Str.CRLF))%string).
  { unfold content_length_line. rewrite append_assoc. reflexivity. }
  unfold parse_headers. cbn [parse_headers_from]. rewrite E.
  rewrite parse_header_line_one_colon.
  - rewrite (strip_surrounded " " (py_str_of_nat n) Str.CRLF); auto.
    apply digits_trimmed, str_of_nat_digits.
  - reflexivity.
  - change (" " ++ py_str_of_nat n ++ Str.CRLF)%string
      with (String " " (py_str_of_nat n ++ Str.CRLF)).
    cbn [Str.count]. rewrite count_append.
    rewrite (digits_count ":" _ eq_refl (str_of_nat_digits n)).
    reflexivity.
Qed.

(** The header block of a frame, read from a stream that delivers. *)
Lemma header_block_read n f sock rest :
  delivering sock ->
  stream_text sock
  = (content_length_line n ++ Str.CRLF ++ Str.CRLF ++ rest)%string ->
  exists sock',
    delivering sock' /\ stream_text sock' = rest
    /\ header_loop (String.length (content_length_line n) + 2 + (2 + f))
         sock [] EmptyString
       = Return (Some [(content_length_line n ++ Str.CRLF)%string], sock').
Proof.
  intros Hd Ht.
  destruct (header_loop_line (content_length_line n) EmptyString (2 + f) sock []
              (Str.CRLF ++ rest)%string Hd Ht (content_length_line_no_lf n))
    as [s1 [D1 [T1 H1]]].
  destruct (header_loop_line EmptyString EmptyString f s1
              [(content_length_line n ++ Str.CRLF)%string] rest D1 T1 eq_refl)
    as [s2 [D2 [T2 H2]]].
  exists s2. repeat split; auto.
  rewrite H1. cbn [String.append].
  destruct (String.eqb (content_length_line n ++ Str.CRLF) Str.CRLF) eqn:E.
  - apply String.eqb_eq in E. unfold content_length_line in E. discriminate.
  - cbn [app]. exact H2.
Qed.

Lemma frame_read :
  forall text rest sock fuel,
    delivering sock ->
    stream_text sock = (stream_text (send_text text []) ++ rest)%string ->
    (String.length (stream_text (send_text text [])) <= fuel)%nat ->
    exists sock',
      recv_raw_frame fuel sock = Return (Some text, sock')
      /\ delivering sock' /\ stream_text sock' = rest.
Proof.
  intros text rest sock fuel Hd Ht Hf.
  rewrite send_text_stream in Ht, Hf. cbn [stream_text fold_right String.append] in Ht, Hf.
  rewrite !append_assoc in Ht.
  rewrite !length_append in Hf. cbn [String.length Str.CRLF] in Hf.
  set (n := String.length text) in *.
  set (L := String.length (content_length_line n)) in *.
  destruct (header_block_read n (fuel - L - 4) sock (text ++ rest)%string Hd Ht)
    as [s1 [D1 [T1 H1]]].
  fold L in H1. replace (L + 2 + (2 + (fuel - L - 4)))%nat with fuel in H1 by lia.
  rewrite (recv_raw_frame_after_headers _ _ _ _ _ H1 (content_length_line_parsed n)).
  change (NoneDict_getitem [("Content-Length", PStr (py_str_of_nat n))]
            "Content-Length") with (Return (PStr (py_str_of_nat n))).
  cbn [bind py_int]. rewrite parse_int_str_of_nat. cbn [bind].
  destruct (body_loop_reads fuel text EmptyString s1 rest D1 T1) as [s2 [B [D2 T2]]];
    [subst n; lia |].
  exists s2. auto.
Qed.

(** X1. A frame written by [send_text] is read back by the frame reader
    as the text sent, however the stream cuts it into segments, and the
    stream is left at the first character after the frame. *)
Theorem frame_round_trip :
  forall text rest sock fuel,
    delivering sock ->
    stream_text sock = (stream_text (send_text text []) ++ rest)%string ->
    (String.length (stream_text (send_text text [])) <= fuel)%nat ->
    exists sock',
      recv_raw_frame fuel sock = Return (Some text, sock')
      /\ delivering sock' /\ stream_text sock' = rest.
Proof. exact frame_read. Qed.

Lemma frame_round_trip_witness :
  exists sock',
    recv_raw_frame 64
      ["Content-Len"; ("gth: 7" ++ Str.CRLF ++ String Str.CR EmptyString)%string;
       String Str.LF "[1,"; "2,3]Con"]
    = Return (Some "[1,2,3]", sock')
    /\ delivering sock' /\ stream_text sock' = "Con".
Proof.
  apply (frame_round_trip "[1,2,3]" "Con").
  - repeat constructor; discriminate.
  - reflexivity.
  - vm_compute. lia.
Defined.

(** X2. Two frames written one after the other are read back one after
    the other: the first read ends where the second frame starts. *)
Theorem two_frames_in_sequence :
  forall text1 text2 rest sock fuel,
    delivering sock ->
    stream_text sock
    = (stream_text (send_text text2 (send_text text1 [])) ++ rest)%string ->
    (String.length (stream_text (send_text text2 (send_text text1 []))) <= fuel)%nat ->
    exists sock1 sock2,
      recv_raw_frame fuel sock = Return (Some text1, sock1)
      /\ recv_raw_frame fuel sock1 = Return (Some text2, sock2)
      /\ delivering sock2 /\ stream_text sock2 = rest.
Proof.
  intros text1 text2 rest sock fuel Hd Ht Hf.
  rewrite send_text_stream in Ht, Hf.
  rewrite append_assoc in Ht. rewrite length_append in Hf.
  destruct (frame_read text1
              (content_length_line (String.length text2)
                 ++ Str.CRLF ++ Str.CRLF ++ text2 ++ rest)%string sock fuel Hd)
    as [s1 [R1 [D1 T1]]].
  - rewrite Ht. now rewrite !append_assoc.
  - lia.
  - destruct (frame_read text2 rest s1 fuel D1) as [s2 [R2 [D2 T2]]].
    + rewrite T1, send_text_stream. cbn [stream_text fold_right String.append].
      now rewrite !append_assoc.
    + rewrite send_text_stream. cbn [stream_text fold_right String.append].
      lia.
    + exists s1, s2. auto.
Qed.

Lemma two_frames_in_sequence_witness :
  exists sock1 sock2,
    recv_raw_frame 64
      [("Content-Length: 2" ++ Str.CRLF ++ Str.CRLF ++ "{}Content-Length: 2"
          ++ Str.CRLF)%string;
       (Str.CRLF ++ "[]")%string]
    = Return (Some "{}", sock1)
    /\ recv_raw_frame 64 sock1 = Return (Some "[]", sock2)
    /\ delivering sock2 /\ stream_text sock2 = EmptyString.
Proof.
  apply (two_frames_in_sequence "{}" "[]" EmptyString).
  - repeat constructor; discriminate.
  - reflexivity.
  - vm_compute. lia.
Defined.

(** ** The stream closes early *)

Lemma header_loop_closed_in_line s :
  forall acc fuel sock headers,
    delivering sock -> stream_text sock = s ->
    Str.count Str.LF s = 0%nat ->
    (String.length s < fuel)%nat ->
    header_loop fuel sock headers acc = Return (None, []).
Proof.
  induction s as [| c s IH]; intros acc fuel sock headers Hd Ht Hc Hf.
  - rewrite (delivering_empty_text sock Hd Ht).
    destruct fuel; [simpl in Hf; lia | reflexivity].
  - destruct fuel as [| fuel]; [simpl in Hf; lia |].
    simpl in Hc. destruct (Ascii.eqb c Str.LF) eqn:E; [discriminate |].
    apply Ascii.eqb_neq in E.
    destruct (recv_one _ _ _ Hd Ht) as [s1 [R1 [D1 T1]]].
    cbn [header_loop]. rewrite R1. cbn [String.eqb].
    rewrite endswith_not_lf by assumption.
    apply IH; auto. simpl in Hf. lia.
Qed.

Lemma header_loop_closed_after_lines lines :
  forall tail fuel sock headers,
    delivering sock ->
    Forall (fun l => l <> EmptyString /\ Str.count Str.LF l = 0%nat) lines ->
    Str.count Str.LF tail = 0%nat ->
    stream_text sock
    = (stream_text (map (fun l => (l ++ Str.CRLF)%string) lines) ++ tail)%string ->
    (String.length (stream_text sock) < fuel)%nat ->
    header_loop fuel sock headers EmptyString = Return (None, []).
Proof.
  induction lines as [| l lines IH]; intros tail fuel sock headers Hd Hl Hc Ht Hf.
  - simpl in Ht. rewrite Ht in Hf. now apply (header_loop_closed_in_line tail).
  - inversion Hl as [| ? ? [Hne Hlf] Hl']; subst.
    cbn [map] in Ht.
    change (stream_text ((l ++ Str.CRLF)%string
                           :: map (fun l => (l ++ Str.CRLF)%string) lines))
      with ((l ++ Str.CRLF)
              ++ stream_text (map (fun l => (l ++ Str.CRLF)%string) lines))%string
      in Ht.
    rewrite !append_assoc in Ht.
    pose proof Hf as Hf'. rewrite Ht in Hf'.
    rewrite !length_append in Hf'. cbn [String.length Str.CRLF] in Hf'.
    destruct (header_loop_line l EmptyString (fuel - String.length l - 2) sock
                headers _ Hd Ht Hlf) as [s1 [D1 [T1 H1]]].
    replace (String.length l + 2 + (fuel - String.length l - 2))%nat
      with fuel in H1 by lia.
    rewrite H1. cbn [String.append].
    destruct (String.eqb (l ++ Str.CRLF) Str.CRLF) eqn:E.
    + apply String.eqb_eq in E. destruct l; [congruence |].
      simpl in E. inversion E as [[Ea Eb]].
      destruct l; simpl in Eb; [discriminate |].
      inversion Eb as [[Ec Ed]]. destruct l; discriminate.
    + apply (IH tail); auto.
      rewrite T1, !length_append. lia.
Qed.

(** X3. When the stream closes inside the header block (after any number
    of complete header lines and a started one), [recv] returns [None],
    however the characters arrived. *)
Theorem closed_in_header_block_is_none :
  forall json_loads lines tail sock fuel,
    delivering sock ->
    Forall (fun l => l <> EmptyString /\ Str.count Str.LF l = 0%nat) lines ->
    Str.count Str.LF tail = 0%nat ->
    stream_text sock
    = (stream_text (map (fun l => (l ++ Str.CRLF)%string) lines) ++ tail)%string ->
    (String.length (stream_text sock) < fuel)%nat ->
    recv json_loads fuel sock = Return (None, []).
Proof.
  intros json_loads lines tail sock fuel Hd Hl Hc Ht Hf.
  unfold recv, recv_raw, recv_raw_frame.
  now rewrite (header_loop_closed_after_lines lines tail fuel sock [] Hd Hl Hc Ht Hf).
Qed.

Lemma closed_in_header_block_is_none_witness :
  recv (fun _ => Raise ValueError) 64
    ["Content-Type: te"; ("xt" ++ Str.CRLF ++ "Content-Len")%string]
  = Return (None, []).
Proof.
  apply (closed_in_header_block_is_none _ ["Content-Type: text"] "Content-Len").
  - repeat constructor; discriminate.
  - repeat constructor; discriminate.
  - reflexivity.
  - reflexivity.
  - vm_compute. lia.
Defined.

(** X4. When the stream closes right after the header block of a frame
    that announces a body, [recv] returns [None]. *)
Theorem closed_before_body_is_none :
  forall json_loads n sock fuel,
    delivering sock ->
    (0 < n)%nat ->
    stream_text sock = (content_length_line n ++ Str.CRLF ++ Str.CRLF)%string ->
    (String.length (stream_text sock) <= fuel)%nat ->
    recv json_loads fuel sock = Return (None, []).
Proof.
  intros json_loads n sock fuel Hd Hn Ht Hf.
  rewrite Ht in Hf. rewrite !length_append in Hf. cbn [String.length Str.CRLF] in Hf.
  assert (Ht' : stream_text sock
                = (content_length_line n ++ Str.CRLF ++ Str.CRLF ++ EmptyString)%string)
    by (rewrite Ht; reflexivity).
  destruct (header_block_read n (fuel - String.length (content_length_line n) - 4)
              sock EmptyString Hd Ht') as [s1 [D1 [T1 H1]]].
  replace (String.length (content_length_line n) + 2
           + (2 + (fuel - String.length (content_length_line n) - 4)))%nat
    with fuel in H1 by lia.
  rewrite (delivering_empty_text s1 D1 T1) in H1.
  unfold recv, recv_raw.
  rewrite (recv_raw_frame_after_headers _ _ _ _ _ H1 (content_length_line_parsed n)).
  change (NoneDict_getitem [("Content-Length", PStr (py_str_of_nat n))]
            "Content-Length") with (Return (PStr (py_str_of_nat n))).
  cbn [bind py_int]. rewrite parse_int_str_of_nat. cbn [bind].
  destruct fuel as [| fuel]; [lia |].
  rewrite body_loop_closed_empty by lia. reflexivity.
Qed.

Lemma closed_before_body_is_none_witness :
  recv (fun _ => Raise ValueError) 64
    ["Content-Length: 13"; (Str.CRLF ++ Str.CRLF)%string]
  = Return (None, []).
Proof.
  apply (closed_before_body_is_none _ 13).
  - repeat constructor; discriminate.
  - lia.
  - reflexivity.
  - vm_compute. lia.
Defined.

(** ** Sending messages *)

Lemma getattr_set_seq self n : getattr (set_seq self n) "seq" = Return n.
Proof. unfold getattr, set_seq, setattr. cbn [attrs]. now rewrite get_set_same. Qed.

(** The attribute [seq] plays no part in what a response or event
    serializes to: the sequence number is the argument of [serialize]. *)
Lemma serialize_ignores_seq_attribute c n seq :
  serialize (set_seq (construct c) n) seq = serialize (construct c) seq.
Proof. destruct c; cbv -[is_none]; split_none; reflexivity. Qed.

(** X5. What [send] writes for a message reaches the JSON decoder of the
    receiving [recv_raw] unchanged: the text decoded is the text
    [json.dumps] produced for the serialized message, whatever the
    segments of the stream. *)
Theorem sent_message_reaches_decoder :
  forall json_dumps json_loads self wire sock fuel,
    send json_dumps self [] = Return wire ->
    delivering sock ->
    stream_text sock = stream_text wire ->
    (String.length (stream_text wire) <= fuel)%nat ->
    exists seq m,
      getattr self "seq" = Return seq
      /\ serialize self seq = Return m
      /\ recv_raw json_loads fuel sock
         = (body <- json_loads (json_dumps m) ;; Return (body, [])).
Proof.
  intros json_dumps json_loads self wire sock fuel Hs Hd Ht Hf.
  unfold send in Hs.
  destruct (getattr self "seq") as [seq | |] eqn:Eq; cbn [bind] in Hs;
    try discriminate.
  destruct (serialize self seq) as [m | |] eqn:Em; cbn [bind] in Hs;
    try discriminate.
  inversion Hs; subst wire; clear Hs.
  exists seq, m. split; [reflexivity |]. split; [exact Em |].
  destruct (frame_read (json_dumps m) EmptyString sock fuel Hd) as [s1 [R [D1 T1]]];
    [now rewrite append_nil_r | assumption |].
  rewrite (delivering_empty_text s1 D1 T1) in R.
  unfold recv_raw. now rewrite R.
Qed.

Lemma sent_message_reaches_decoder_witness :
  exists seq m,
    getattr (set_seq (construct (NewExitedEvent (PInt 0))) (PInt 2)) "seq" = Return seq
    /\ serialize (set_seq (construct (NewExitedEvent (PInt 0))) (PInt 2)) seq = Return m
    /\ recv_raw (fun _ => Return PNone) 64
         ["Content-Length: 2"; (Str.CRLF ++ Str.CRLF ++ "{}")%string]
       = (body <- (fun _ => Return PNone) ((fun _ : pyval => "{}") m) ;;
          Return (body, [])).
Proof.
  apply (sent_message_reaches_decoder (fun _ => "{}") (fun _ => Return PNone)
           (set_seq (construct (NewExitedEvent (PInt 0))) (PInt 2))
           (send_text "{}" [])).
  - reflexivity.
  - repeat constructor; discriminate.
  - reflexivity.
  - vm_compute. lia.
Defined.

(** X6. A response or event as its constructor leaves it has no [seq]
    attribute, so [send] raises [AttributeError]; once [set_seq(n)] has
    been called, [send] writes one frame holding the message serialized
    with sequence number [n], or raises what [serialize] raises. *)
Theorem send_needs_set_seq :
  forall json_dumps c wire n,
    send json_dumps (construct c) wire = Raise AttributeError
    /\ send json_dumps (set_seq (construct c) n) wire
       = (m <- serialize (construct c) n ;;
          Return (send_text (json_dumps m) wire)).
Proof.
  intros json_dumps c wire n. split.
  - destruct c; reflexivity.
  - unfold send. rewrite getattr_set_seq. cbn [bind].
    now rewrite serialize_ignores_seq_attribute.
Qed.

(** ** The header parser on any list of lines *)

Lemma lstrip_length s : (String.length (Str.lstrip s) <= String.length s)%nat.
Proof.
  induction s as [| c s IH]; simpl; auto.
  destruct (Str.isspace c); simpl; lia.
Qed.

Lemma lstrip_fixed_head c r :
  Str.lstrip (String c r) = String c r -> Str.isspace c = false.
Proof.
  simpl. destruct (Str.isspace c); auto. intros H.
  pose proof (lstrip_length r) as L. rewrite H in L. simpl in L. lia.
Qed.

Lemma lstrip_idem s : Str.lstrip (Str.lstrip s) = Str.lstrip s.
Proof.
  induction s as [| c s IH]; simpl; auto.
  destruct (Str.isspace c) eqn:E; auto. simpl. now rewrite E.
Qed.

Lemma lstrip_split s :
  exists ws, s = (ws ++ Str.lstrip s)%string /\ all_chars Str.isspace ws = true.
Proof.
  induction s as [| c s [ws [E H]]]; simpl.
  - exists EmptyString. auto.
  - destruct (Str.isspace c) eqn:Ec.
    + exists (String c ws). simpl. rewrite Ec, H. split; [congruence | reflexivity].
    + exists EmptyString. auto.
Qed.

(** What [strip] returns neither starts nor ends with whitespace. *)
Lemma strip_is_trimmed s : trimmed (Str.strip s).
Proof.
  unfold Str.strip, Str.rstrip, trimmed.
  set (t := Str.lstrip s). set (u := Str.lstrip (Str.rev t)).
  split; [| rewrite rev_involutive; apply lstrip_idem].
  destruct (lstrip_split (Str.rev t)) as [ws [E H]]. fold u in E.
  assert (Et : t = (Str.rev u ++ Str.rev ws)%string).
  { rewrite <- rev_append, <- E. symmetry. apply rev_involutive. }
  destruct (Str.rev u) as [| c r] eqn:Er; auto.
  assert (Hc : Str.isspace c = false).
  { apply (lstrip_fixed_head c (r ++ Str.rev ws)).
    change (String c (r ++ Str.rev ws)) with (String c r ++ Str.rev ws)%string.
    rewrite <- Et. apply lstrip_idem. }
  simpl. now rewrite Hc.
Qed.

Lemma parse_header_line_ok h hl :
  Str.count ":"%char hl = 1%nat ->
  exists name value,
    parse_header_line h hl
    = Return (Dict.set h (Str.strip name) (PStr (Str.strip value))).
Proof.
  intros Hc. unfold parse_header_line.
  pose proof (length_split ":"%char hl) as L. rewrite Hc in L.
  destruct (Str.split ":"%char hl) as [| a [| b [| c l]]]; simpl in L;
    try discriminate.
  eauto.
Qed.

Lemma set_length (d : dict) k v :
  (List.length (Dict.set d k v) <= S (List.length d))%nat.
Proof.
  induction d as [| [k' v'] d IH]; simpl; auto.
  destruct (String.eqb k' k); simpl; lia.
Qed.

Lemma set_keeps_entries (P : string * pyval -> Prop) (d : dict) k v :
  Forall P d -> P (k, v) -> Forall P (Dict.set d k v).
Proof.
  intros Hd Hp. induction Hd as [| [k' v'] d Hx Hd IH]; simpl.
  - auto.
  - destruct (String.eqb k' k) eqn:E.
    + apply String.eqb_eq in E. subst. constructor; auto.
    + constructor; auto.
Qed.

Lemma parse_headers_from_outcome hs :
  forall h,
    Forall header_entry h ->
    if one_colon_each hs
    then exists h', parse_headers_from h hs = Return h'
                    /\ (List.length h' <= List.length h + List.length hs)%nat
                    /\ Forall header_entry h'
    else parse_headers_from h hs = Raise ValueError.
Proof.
  induction hs as [| hl hs IH]; intros h Hh; simpl.
  - exists h. repeat split; auto. lia.
  - destruct (Nat.eqb (Str.count ":"%char hl) 1) eqn:E; simpl.
    + apply Nat.eqb_eq in E.
      destruct (parse_header_line_ok h hl E) as [name [value P]].
      rewrite P. cbn [bind].
      assert (Hh' : Forall header_entry
                      (Dict.set h (Str.strip name) (PStr (Str.strip value)))).
      { apply set_keeps_entries; auto. split; simpl.
        - apply strip_is_trimmed.
        - eexists. split; [reflexivity | apply strip_is_trimmed]. }
      specialize (IH _ Hh').
      destruct (one_colon_each hs).
      * destruct IH as [h' [R [L F]]]. exists h'. repeat split; auto.
        pose proof (set_length h (Str.strip name) (PStr (Str.strip value))). lia.
      * exact IH.
    + apply Nat.eqb_neq in E. now rewrite parse_header_line_other.
Qed.






(** X7. The header parser succeeds exactly when every line has exactly
    one colon, and fails with [ValueError] otherwise. The mapping it returns
    has at most one entry per line, and every name and value in it is
    text without surrounding whitespace. *)
Theorem parse_headers_outcome :
  forall hs,
    if one_colon_each hs
    then exists h, parse_headers hs = Return h
                   /\ (List.length h <= List.length hs)%nat
                   /\ Forall header_entry h
    else parse_headers hs = Raise ValueError.
Proof.
  intros hs. exact (parse_headers_from_outcome hs [] (Forall_nil _)).
Qed.

(** ** remove_nones and NoneDict *)

Lemma keys_not_none_entries d k :
  In k (Dict.keys (not_none_entries d)) -> In k (Dict.keys d).
Proof.
  unfold not_none_entries, Dict.keys.
  induction d as [| [k0 v0] d IH]; simpl; auto.
  destruct (is_none v0); simpl; intuition.
Qed.

Lemma nodup_not_none_entries d :
  NoDup (Dict.keys d) -> NoDup (Dict.keys (not_none_entries d)).
Proof.
  induction d as [| [k0 v0] d IH]; simpl; intros H; auto.
  inversion H; subst.
  destruct (is_none v0); simpl; auto.
  constructor; auto. intros Hin. now apply keys_not_none_entries in Hin.
Qed.

Lemma not_none_entries_idem d :
  not_none_entries (not_none_entries d) = not_none_entries d.
Proof.
  unfold not_none_entries.
  induction d as [| [k0 v0] d IH]; simpl; auto.
  destruct (is_none v0) eqn:E; simpl; auto. now rewrite E, IH.
Qed.

Lemma get_not_none_entries d k :
  NoDup (Dict.keys d) ->
  Dict.get (not_none_entries d) k
  = match Dict.get d k with
    | Some v => if is_none v then None else Some v
    | None => None
    end.
Proof.
  induction d as [| [k0 v0] d IH]; simpl; intros H; auto.
  inversion H as [| ? ? Hk Hd]; subst.
  destruct (String.eqb k0 k) eqn:E.
  - apply String.eqb_eq in E. subst k0.
    destruct (is_none v0) eqn:Ev; simpl.
    + apply get_none_not_in. intros Hin. now apply keys_not_none_entries in Hin.
    + now rewrite String.eqb_refl.
  - destruct (is_none v0); simpl; [| rewrite E]; now apply IH.
Qed.

(** X8. On a dict [remove_nones] never raises: it returns the entries
    whose value is not [None], in their order. Looking a key up in the
    result gives the original value unless that was [None] or missing, and
    applying [remove_nones] to the result changes nothing. *)
Theorem remove_nones_keeps_the_set_entries :
  forall d,
    NoDup (Dict.keys d) ->
    remove_nones d = Return (not_none_entries d)
    /\ (forall k, Dict.get (not_none_entries d) k
                  = match Dict.get d k with
                    | Some v => if is_none v then None else Some v
                    | None => None
                    end)
    /\ remove_nones (not_none_entries d) = Return (not_none_entries d).
Proof.
  intros d H. split; [now apply remove_nones_distinct |].
  split; [intros k; now apply get_not_none_entries |].
  rewrite remove_nones_distinct by now apply nodup_not_none_entries.
  now rewrite not_none_entries_idem.
Qed.

Lemma remove_nones_keeps_the_set_entries_witness :
  remove_nones [("threadId", PInt 1); ("x", PNone); ("name", PStr "main")]
  = Return [("threadId", PInt 1); ("name", PStr "main")].
Proof.
  apply (remove_nones_keeps_the_set_entries
           [("threadId", PInt 1); ("x", PNone); ("name", PStr "main")]).
  repeat constructor; simpl; intuition discriminate.
Defined.

Lemma NoneDict_init_loop_distinct pre suf acc :
  NoDup (Dict.keys (pre ++ suf)) ->
  (forall k, In k (Dict.keys acc) -> In k (Dict.keys pre)) ->
  NoneDict_init_loop (pre ++ suf) (Dict.keys suf) acc = Return (acc ++ suf).
Proof.
  revert pre acc. induction suf as [| [k v] suf IH]; intros pre acc Hnd Hacc; simpl.
  - now rewrite app_nil_r.
  - assert (Hk : ~ In k (Dict.keys pre)).
    { rewrite keys_app in Hnd. simpl in Hnd.
      apply NoDup_remove_2 in Hnd. intros Hin. apply Hnd.
      apply in_or_app. now left. }
    unfold dict_getitem. rewrite (get_app_not_in pre _ k Hk), get_head. simpl.
    replace (pre ++ (k, v) :: suf) with ((pre ++ [(k, v)]) ++ suf) in *
      by now rewrite <- app_assoc.
    rewrite set_fresh by (apply get_none_not_in; intros Hin; auto).
    rewrite IH; auto.
    + now rewrite <- app_assoc.
    + intros k' Hin. rewrite keys_app in *. apply in_app_or in Hin.
      apply in_or_app. destruct Hin as [Hin | Hin]; [left; auto | now right].
Qed.

(** X9. A [NoneDict] built from a dict holds the same entries, and
    subscripting it never raises: a key of the dict gives its value, any
    other key gives [None]. *)
Theorem NoneDict_copies_and_never_raises :
  forall other,
    NoDup (Dict.keys other) ->
    NoneDict__init__ other = Return other
    /\ (forall k,
          (d <- NoneDict__init__ other ;; NoneDict_getitem d k)
          = Return (match Dict.get other k with
                    | Some v => v
                    | None => PNone
                    end)).
Proof.
  intros other H.
  assert (E : NoneDict__init__ other = Return other).
  { unfold NoneDict__init__.
    apply (NoneDict_init_loop_distinct [] other []); simpl; auto. }
  split; [exact E |].
  intros k. rewrite E. cbn [bind]. apply NoneDict_getitem_lookup.
Qed.

Lemma NoneDict_copies_and_never_raises_witness :
  NoneDict__init__ [("seq", PInt 1); ("command", PStr "next")]
  = Return [("seq", PInt 1); ("command", PStr "next")].
Proof.
  apply (NoneDict_copies_and_never_raises [("seq", PInt 1); ("command", PStr "next")]).
  repeat constructor; simpl; intuition discriminate.
Defined.

(** ** Requests that [recv] refuses *)

Lemma mem_app_l (a b : dict) k :
  Dict.mem a k = true -> Dict.mem (a ++ b) k = true.
Proof.
  unfold Dict.mem. induction a as [| [k0 v0] a IH]; simpl; [discriminate |].
  destruct (String.eqb k0 k); auto.
Qed.

(** A keyword that names the receiver or a parameter already bound stops
    the call with [TypeError], wherever it stands among the keywords. *)
Lemma bind_keywords_collision kw :
  forall ps vk bound extra k,
    In k (Dict.keys kw) ->
    String.eqb k receiver = true \/ Dict.mem bound k = true ->
    bind_keywords ps vk kw bound extra = Raise TypeError.
Proof.
  induction kw as [| [k' v] kw IH]; intros ps vk bound extra k Hin Hk;
    simpl in *; [contradiction |].
  destruct (String.eqb k' receiver || Dict.mem bound k') eqn:E; auto.
  assert (Hin' : In k (Dict.keys kw)).
  { destruct Hin as [-> | Hin]; auto.
    apply orb_false_iff in E. destruct E as [E1 E2].
    destruct Hk; congruence. }
  destruct (is_param ps k').
  - apply (IH _ _ _ _ k); auto.
    destruct Hk; auto. right. now apply mem_app_l.
  - destruct vk; auto.
    destruct (Dict.mem extra k'); auto.
    apply (IH _ _ _ _ k); auto.
Qed.

Lemma DAPRequest_new_collision command d :
  In "command" (Dict.keys d) \/ In "self" (Dict.keys d) ->
  DAPRequest_new [] (("command", command) :: d) = Raise TypeError.
Proof.
  intros H. unfold DAPRequest_new, DAPRequest__init__, bind_args.
  change (bind_positional (params DAPRequest__init__sig) [])
    with (Return (@nil (string * pyval), [("command", @None pyval)])).
  cbn [bind].
  change (bind_keywords [("command", None)] (var_kw DAPRequest__init__sig)
            (("command", command) :: d) [] [])
    with (bind_keywords [("command", None)] true d [("command", command)] []).
  destruct H as [H | H].
  - rewrite (bind_keywords_collision d _ _ [("command", command)] _ "command" H);
      [reflexivity | right; reflexivity].
  - rewrite (bind_keywords_collision d _ _ [("command", command)] _ "self" H);
      [reflexivity | left; reflexivity].
Qed.

(** X10. [recv] raises [TypeError] for a decoded request whose
    [arguments] member is neither null nor an object, and for one whose
    arguments object has a member named [command] or [self]. *)
Theorem recv_body_refuses_arguments :
  forall b,
    wire_arguments (NoneDict_lookup b "arguments") = None
    \/ (exists d,
          wire_arguments (NoneDict_lookup b "arguments") = Some d
          /\ (In "command" (Dict.keys d) \/ In "self" (Dict.keys d))) ->
    recv_body (PNoneDict b) = Raise TypeError.
Proof.
  intros b H. unfold recv_body. cbn [is_none negb subscript].
  rewrite !NoneDict_getitem_lookup. cbn [bind].
  destruct H as [Hw | [d [Hw Hin]]].
  - destruct (NoneDict_lookup b "arguments"); simpl in Hw;
      try discriminate Hw; reflexivity.
  - assert (Hu : unpack_mapping
                   (if is_none (NoneDict_lookup b "arguments") then PDict []
                    else NoneDict_lookup b "arguments") = Return d).
    { destruct (NoneDict_lookup b "arguments"); simpl in *;
        try discriminate Hw; now inversion Hw. }
    rewrite Hu. cbn [bind].
    now rewrite DAPRequest_new_collision.
Qed.

Lemma recv_body_refuses_arguments_witness :
  recv_body (PNoneDict [("seq", PInt 1); ("command", PStr "evaluate");
                        ("arguments", PNoneDict [("expression", PStr "x");
                                                 ("command", PStr "y")])])
  = Raise TypeError.
Proof.
  apply (recv_body_refuses_arguments
           [("seq", PInt 1); ("command", PStr "evaluate");
            ("arguments", PNoneDict [("expression", PStr "x");
                                     ("command", PStr "y")])]).
  right. exists [("expression", PStr "x"); ("command", PStr "y")].
  split; [reflexivity | left; simpl; auto].
Defined.

(** X11. A request serialized by the module and handed back to [recv]
    keeps its command and its sequence number and loses its arguments:
    [serialize] writes them under [args], [recv] looks under
    [arguments]. *)
Theorem serialized_request_read_back :
  forall pos kw rq seq,
    DAPRequest_new pos kw = Return rq ->
    exists command kwargs,
      serialize rq seq
      = Return (PDict [("seq", seq); ("type", PStr "type");
                       ("command", command); ("args", PDict kwargs)])
      /\ Dict.get (attrs rq) "command" = Some command
      /\ Dict.get (attrs rq) "kwargs" = Some (PDict kwargs)
      /\ recv_body (PNoneDict [("seq", seq); ("type", PStr "type");
                               ("command", command); ("args", PDict kwargs)])
         = Return (Some {| cls := DAPRequest;
                           attrs := [("command", command);
                                     ("kwargs", PDict []);
                                     ("seq", seq)] |}).
Proof.
  intros pos kw rq seq H.
  destruct (DAPRequest_new_shape pos kw rq H) as [command [kwargs ->]].
  exists command, kwargs. repeat split.
Qed.

Lemma serialized_request_read_back_witness :
  exists command kwargs,
    serialize {| cls := DAPRequest;
                 attrs := [("command", PStr "next");
                           ("kwargs", PDict [("threadId", PInt 1)])] |} (PInt 5)
    = Return (PDict [("seq", PInt 5); ("type", PStr "type");
                     ("command", command); ("args", PDict kwargs)])
    /\ Dict.get [("command", PStr "next"); ("kwargs", PDict [("threadId", PInt 1)])]
         "command" = Some command
    /\ Dict.get [("command", PStr "next"); ("kwargs", PDict [("threadId", PInt 1)])]
         "kwargs" = Some (PDict kwargs)
    /\ recv_body (PNoneDict [("seq", PInt 5); ("type", PStr "type");
                             ("command", command); ("args", PDict kwargs)])
       = Return (Some {| cls := DAPRequest;
                         attrs := [("command", command);
                                   ("kwargs", PDict []);
                                   ("seq", PInt 5)] |}).
Proof.
  apply (serialized_request_read_back [PStr "next"] [("threadId", PInt 1)]).
  reflexivity.
Defined.

(** ** Bodies of particular responses *)

(** X12. The stackTrace response reports as [totalFrames] the number of
    stack frames it was given, whatever they are, next to the frames
    themselves; given [None] for the frames, serializing it raises
    [TypeError]. *)
Theorem stack_trace_counts_frames :
  forall rqs frames seq,
    serialize (construct (NewStackTraceResponse rqs (PList frames))) seq
    = Return (PDict [("seq", seq); ("type", PStr "response");
                     ("request_seq", rqs); ("command", PStr "stackTrace");
                     ("success", PBool true);
                     ("body", PDict [("stackFrames", PList frames);
                                     ("totalFrames",
                                      PInt (Z.of_nat (List.length frames)))])])
    /\ serialize (construct (NewStackTraceResponse rqs PNone)) seq
       = Raise TypeError.
Proof. intros. split; reflexivity. Qed.

(** X13. The body of the initialize response is the capabilities value
    itself, not a map that contains it. *)
Theorem initialize_body_is_capabilities :
  forall rqs capabilities seq,
    serialize (construct (NewInitializeResponse rqs capabilities)) seq
    = Return (PDict [("seq", seq); ("type", PStr "response");
                     ("request_seq", rqs); ("command", PStr "initialize");
                     ("success", PBool true); ("body", capabilities)]).
Proof. reflexivity. Qed.

(** ** Event names *)

Lemma event_name_of c seq m :
  serialize (construct c) seq = Return (PDict m) ->
  Dict.get m "type" = Some (PStr "event") ->
  exists name, Dict.get m "event" = Some (PStr name)
               /\ event_class name = Some (cls (construct c)).
Proof.
  intros Hm Ht. destruct c;
    try match goal with
      | H : context [NewStackTraceResponse _ ?f] |- _ =>
          destruct f; try discriminate H
      end.
  all: cbv -[is_none] in Hm; split_none; try discriminate Hm;
    inversion Hm; subst m; clear Hm.
  all: try discriminate Ht.
  all: eexists; split; reflexivity.
Qed.

(** X14. The [event] member of a serialized event determines the class
    of the event: two events that serialize with the same name are
    instances of the same class. *)
Theorem event_name_determines_class :
  forall c1 c2 seq1 seq2 m1 m2,
    serialize (construct c1) seq1 = Return (PDict m1) ->
    serialize (construct c2) seq2 = Return (PDict m2) ->
    Dict.get m1 "type" = Some (PStr "event") ->
    Dict.get m2 "type" = Some (PStr "event") ->
    Dict.get m1 "event" = Dict.get m2 "event" ->
    cls (construct c1) = cls (construct c2).
Proof.
  intros c1 c2 seq1 seq2 m1 m2 H1 H2 T1 T2 E.
  destruct (event_name_of c1 seq1 m1 H1 T1) as [n1 [G1 C1]].
  destruct (event_name_of c2 seq2 m2 H2 T2) as [n2 [G2 C2]].
  rewrite G1, G2 in E. inversion E; subst n2. congruence.
Qed.

Lemma event_name_determines_class_witness :
  cls (construct (NewExitedEvent (PInt 0))) = cls (construct (NewExitedEvent (PInt 3))).
Proof.
  apply (event_name_determines_class
           (NewExitedEvent (PInt 0)) (NewExitedEvent (PInt 3)) (PInt 1) (PInt 2)
           _ _ eq_refl eq_refl); reflexivity.
Defined.

(** ** Any well-formed frame *)

Lemma line_not_blank l : l <> EmptyString -> String.eqb (l ++ Str.CRLF) Str.CRLF = false.
Proof.
  intros Hne. destruct (String.eqb (l ++ Str.CRLF) Str.CRLF) eqn:E; auto.
  apply String.eqb_eq in E. destruct l; [congruence |].
  simpl in E. inversion E as [[Ea Eb]].
  destruct l; simpl in Eb; [discriminate |].
  inversion Eb as [[Ec Ed]]. destruct l; discriminate.
Qed.

Lemma header_loop_lines lines :
  forall f sock headers rest,
    delivering sock ->
    Forall (fun l => l <> EmptyString /\ Str.count Str.LF l = 0%nat) lines ->
    stream_text sock
    = (stream_text (map (fun l => (l ++ Str.CRLF)%string) lines)
         ++ Str.CRLF ++ rest)%string ->
    exists sock',
      delivering sock' /\ stream_text sock' = rest
      /\ header_loop
           (String.length (stream_text (map (fun l => (l ++ Str.CRLF)%string) lines))
            + 2 + f) sock headers EmptyString
         = Return (Some (headers ++ map (fun l => (l ++ Str.CRLF)%string) lines),
                   sock').
Proof.
  induction lines as [| l lines IH]; intros f sock headers rest Hd Hl Ht.
  - cbn [map stream_text fold_right String.append] in *.
    destruct (header_loop_line EmptyString EmptyString f sock headers rest Hd Ht eq_refl)
      as [s1 [D1 [T1 H1]]].
    exists s1. repeat split; auto. rewrite app_nil_r. exact H1.
  - inversion Hl as [| ? ? [Hne Hlf] Hl']; subst.
    cbn [map] in *.
    change (stream_text ((l ++ Str.CRLF)%string
                           :: map (fun l => (l ++ Str.CRLF)%string) lines))
      with ((l ++ Str.CRLF)
              ++ stream_text (map (fun l => (l ++ Str.CRLF)%string) lines))%string
      in *.
    rewrite !append_assoc in Ht.
    set (L := String.length
                (stream_text (map (fun l => (l ++ Str.CRLF)%string) lines))) in *.
    destruct (header_loop_line l EmptyString (L + 2 + f) sock headers _ Hd Ht Hlf)
      as [s1 [D1 [T1 H1]]].
    destruct (IH f s1 (headers ++ [(l ++ Str.CRLF)%string]) rest D1 Hl' T1)
      as [s2 [D2 [T2 H2]]].
    exists s2. repeat split; auto.
    rewrite !length_append. cbn [String.length Str.CRLF]. fold L.
    replace (String.length l + 2 + L + 2 + f)%nat
      with (String.length l + 2 + (L + 2 + f))%nat by lia.
    rewrite H1. cbn [String.append]. rewrite (line_not_blank l Hne).
    fold L in H2. rewrite H2. now rewrite <- app_assoc.
Qed.

(** X15. For a stream that holds a header block of non-empty lines, the
    blank line, and at least as many characters as the [Content-Length]
    of the block announces, the frame reader returns exactly that many
    characters and leaves the stream right behind them, whatever other
    headers the block has and however the stream is cut into segments. *)
Theorem frame_reader_reads_declared_length :
  forall lines h v body rest sock fuel,
    delivering sock ->
    Forall (fun l => l <> EmptyString /\ Str.count Str.LF l = 0%nat) lines ->
    stream_text sock
    = (stream_text (map (fun l => (l ++ Str.CRLF)%string) lines)
         ++ Str.CRLF ++ body ++ rest)%string ->
    parse_headers (map (fun l => (l ++ Str.CRLF)%string) lines) = Return h ->
    Dict.get h "Content-Length" = Some (PStr v) ->
    Str.parse_int v = Some (Z.of_nat (String.length body)) ->
    (String.length (stream_text sock) <= fuel)%nat ->
    exists sock',
      recv_raw_frame fuel sock = Return (Some body, sock')
      /\ delivering sock' /\ stream_text sock' = rest.
Proof.
  intros lines h v body rest sock fuel Hd Hl Ht Hp Hg Hi Hf.
  rewrite Ht in Hf. rewrite !length_append in Hf. cbn [String.length Str.CRLF] in Hf.
  set (L := String.length
              (stream_text (map (fun l => (l ++ Str.CRLF)%string) lines))) in *.
  destruct (header_loop_lines lines (fuel - L - 2) sock [] (body ++ rest)%string
              Hd Hl Ht) as [s1 [D1 [T1 H1]]].
  fold L in H1. replace (L + 2 + (fuel - L - 2))%nat with fuel in H1 by lia.
  cbn [app] in H1.
  rewrite (recv_raw_frame_after_headers _ _ _ _ _ H1 Hp).
  unfold NoneDict_getitem, Dict.mem, dict_getitem. rewrite Hg.
  cbn [negb bind py_int]. rewrite Hi. cbn [bind].
  destruct (body_loop_reads fuel body EmptyString s1 rest D1 T1) as [s2 [B [D2 T2]]];
    [lia |].
  exists s2. auto.
Qed.

Lemma frame_reader_reads_declared_length_witness :
  exists sock',
    recv_raw_frame 80
      [("Content-Type: json" ++ Str.CRLF ++ "content-length : 99" ++ Str.CRLF
          ++ "Content-Length:  2 ")%string;
       (Str.CRLF ++ Str.CRLF ++ "{}tail")%string]
    = Return (Some "{}", sock')
    /\ delivering sock' /\ stream_text sock' = "tail".
Proof.
  apply (frame_reader_reads_declared_length
           ["Content-Type: json"; "content-length : 99"; "Content-Length:  2 "]
           [("Content-Type", PStr "json"); ("content-length", PStr "99");
            ("Content-Length", PStr "2")]
           "2" "{}" "tail").
  - repeat constructor; discriminate.
  - repeat constructor; discriminate.
  - reflexivity.
  - reflexivity.
  - reflexivity.
  - reflexivity.
  - vm_compute. lia.
Defined.

(** ** From the stream to the request *)

Lemma recv_body_generic b d :
  wire_arguments (NoneDict_lookup b "arguments") = Some d ->
  NoDup (Dict.keys d) ->
  ~ In "command" (Dict.keys d) ->
  ~ In "self" (Dict.keys d) ->
  recv_body (PNoneDict b)
  = Return (Some {| cls := DAPRequest;
                    attrs := [("command", NoneDict_lookup b "command");
                              ("kwargs", PDict (not_none_entries d));
                              ("seq", NoneDict_lookup b "seq")] |}).
Proof.
  intros Hw Hnd Hc Hs.
  unfold recv_body. cbn [is_none negb subscript].
  rewrite !NoneDict_getitem_lookup. cbn [bind].
  assert (Hu : unpack_mapping
                 (if is_none (NoneDict_lookup b "arguments") then PDict []
                  else NoneDict_lookup b "arguments") = Return d).
  { destruct (NoneDict_lookup b "arguments"); simpl in *;
      try discriminate Hw; now inversion Hw. }
  rewrite Hu. cbn [bind].
  rewrite DAPRequest_new_keywords by assumption.
  reflexivity.
Qed.

(** X16. From the bytes to the request: when the stream holds a frame
    written by [send_text] whose text the JSON decoder reads as an object
    with well-formed arguments, [recv] returns the [DAPRequest] with the
    command, the arguments that are not null and the sequence number of
    that object, and leaves the stream at the end of the frame. *)
Theorem recv_request_from_stream :
  forall json_loads text b d rest sock fuel,
    delivering sock ->
    stream_text sock = (stream_text (send_text text []) ++ rest)%string ->
    (String.length (stream_text (send_text text [])) <= fuel)%nat ->
    json_loads text = Return (PNoneDict b) ->
    wire_arguments (NoneDict_lookup b "arguments") = Some d ->
    NoDup (Dict.keys d) ->
    ~ In "command" (Dict.keys d) ->
    ~ In "self" (Dict.keys d) ->
    exists sock',
      recv json_loads fuel sock
      = Return (Some {| cls := DAPRequest;
                        attrs := [("command", NoneDict_lookup b "command");
                                  ("kwargs", PDict (not_none_entries d));
                                  ("seq", NoneDict_lookup b "seq")] |},
                sock')
      /\ delivering sock' /\ stream_text sock' = rest.
Proof.
  intros json_loads text b d rest sock fuel Hd Ht Hf Hj Hw Hnd Hc Hs.
  destruct (frame_read text rest sock fuel Hd Ht Hf) as [s1 [R [D1 T1]]].
  exists s1. repeat split; auto.
  unfold recv, recv_raw. rewrite R. cbn [bind]. rewrite Hj. cbn [bind].
  now rewrite (recv_body_generic b d Hw Hnd Hc Hs).
Qed.

Lemma recv_request_from_stream_witness :
  exists sock',
    recv (fun _ => Return (PNoneDict [("seq", PInt 1); ("command", PStr "next");
                                      ("arguments", PNoneDict [("threadId", PInt 7);
                                                               ("x", PNone)])]))
      64 [("Content-Length: 2" ++ Str.CRLF)%string; (Str.CRLF ++ "{}")%string]
    = Return (Some {| cls := DAPRequest;
                      attrs := [("command", PStr "next");
                                ("kwargs", PDict [("threadId", PInt 7)]);
                                ("seq", PInt 1)] |},
              sock')
    /\ delivering sock' /\ stream_text sock' = EmptyString.
Proof.
  apply (recv_request_from_stream _ "{}"
           [("seq", PInt 1); ("command", PStr "next");
            ("arguments", PNoneDict [("threadId", PInt 7); ("x", PNone)])]
           [("threadId", PInt 7); ("x", PNone)] EmptyString).
  - repeat constructor; discriminate.
  - reflexivity.
  - vm_compute. lia.
  - reflexivity.
  - reflexivity.
  - repeat constructor; simpl; intuition discriminate.
  - simpl; intuition discriminate.
  - simpl; intuition discriminate.
Defined.

(** ** When serialization fails *)

